(** * Sales + Attendance Dashboard API: shift and business-day bucketing

    A shallow embedding of [main.py].

    - The Python [datetime] values the service computes with are records of
      their calendar fields and of their zone object; the proleptic Gregorian
      arithmetic of the [datetime] module ([toordinal], [fromordinal],
      addition of a [timedelta], [astimezone], [isoformat]) is written out,
      so that the functions of the service can be evaluated.  A zone object
      is its key and a fixed offset: [Asia/Manila] is at +08:00, the offset
      the zone has had without interruption since the end of July 1990.  What
      the zone was at before is data of the time zone database of the host
      and not of the program; the statements that depend on the offset of the
      zone are made for readings of the years from 1991 on.
    - What raises in Python returns [None] here (the [OverflowError] of an
      operation that leaves the years 1 to 9999), and ends a request handler
      with [Unhandled].
    - A table is the list of its rows and a query a function of it.  Rows of
      equal sort keys, whose order SQL leaves to the store, come in the order
      a stable sort leaves them in, one of the orders the store may answer
      with; the statements say nothing of the order among them.
    - A request handler is a function of what it reads (the configured key,
      the clock, the stores) that returns the calls it made, in order, and
      how it ended. *)

From Stdlib Require Import ZArith Lia List String Ascii Bool.
From stdpp Require Import base option list strings gmap sorting.

Local Open Scope Z_scope.
Set Warnings "-clear-no-such-hyp".

(** ** The proleptic Gregorian calendar of the [datetime] module *)

Module Calendar.

Definition MINYEAR : Z := 1.
Definition MAXYEAR : Z := 9999.

Definition is_leap (year : Z) : bool :=
  (year mod 4 =? 0) && (negb (year mod 100 =? 0) || (year mod 400 =? 0)).

Definition DAYS_IN_MONTH (month : Z) : Z :=
  match month with
  | 1 => 31 | 2 => 28 | 3 => 31 | 4 => 30 | 5 => 31 | 6 => 30
  | 7 => 31 | 8 => 31 | 9 => 30 | 10 => 31 | 11 => 30 | 12 => 31
  | _ => -1
  end.

Definition DAYS_BEFORE_MONTH (month : Z) : Z :=
  match month with
  | 1 => 0 | 2 => 31 | 3 => 59 | 4 => 90 | 5 => 120 | 6 => 151
  | 7 => 181 | 8 => 212 | 9 => 243 | 10 => 273 | 11 => 304 | 12 => 334
  | _ => -1
  end.

Definition days_before_year (year : Z) : Z :=
  let y := year - 1 in y * 365 + y / 4 - y / 100 + y / 400.

Definition days_in_month (year month : Z) : Z :=
  if (month =? 2) && is_leap year then 29 else DAYS_IN_MONTH month.

Definition days_before_month (year month : Z) : Z :=
  DAYS_BEFORE_MONTH month + (if (2 <? month) && is_leap year then 1 else 0).

Definition ymd2ord (year month day : Z) : Z :=
  days_before_year year + days_before_month year month + day.

Definition DI400Y : Z := 146097.
Definition DI100Y : Z := 36524.
Definition DI4Y : Z := 1461.
Definition MAXORDINAL : Z := 3652059.

(** [ord2ymd n] is the (year, month, day) of ordinal [n], 0001-01-01 being
    day 1; the cycle decomposition of the library. *)
Definition ord2ymd (n : Z) : Z * Z * Z :=
  let n := n - 1 in
  let n400 := n / DI400Y in
  let n := n mod DI400Y in
  let year := n400 * 400 + 1 in
  let n100 := n / DI100Y in
  let n := n mod DI100Y in
  let n4 := n / DI4Y in
  let n := n mod DI4Y in
  let n1 := n / 365 in
  let n := n mod 365 in
  let year := year + n100 * 100 + n4 * 4 + n1 in
  if (n1 =? 4) || (n100 =? 4) then (year - 1, 12, 31)
  else
    let leapyear := (n1 =? 3) && (negb (n4 =? 24) || (n100 =? 3)) in
    let month := Z.shiftr (n + 50) 5 in
    let preceding :=
      DAYS_BEFORE_MONTH month + (if (2 <? month) && leapyear then 1 else 0) in
    if n <? preceding then
      let month := month - 1 in
      let preceding :=
        preceding
        - (DAYS_IN_MONTH month + (if (month =? 2) && leapyear then 1 else 0)) in
      (year, month, n - preceding + 1)
    else (year, month, n - preceding + 1).

(** A calendar date, [datetime.date]. *)
Record date := mk_date { year : Z; month : Z; day : Z }.

Definition check_date_fields (year month day : Z) : bool :=
  (MINYEAR <=? year) && (year <=? MAXYEAR)
  && (1 <=? month) && (month <=? 12)
  && (1 <=? day) && (day <=? days_in_month year month).

Definition valid_date (d : date) : Prop :=
  check_date_fields (year d) (month d) (day d) = true.

Definition toordinal (d : date) : Z := ymd2ord (year d) (month d) (day d).

(** [date.fromordinal]: [None] stands for the [ValueError] outside
    [1 .. MAXORDINAL]. *)
Definition fromordinal (n : Z) : option date :=
  if (1 <=? n) && (n <=? MAXORDINAL) then
    let '(y, m, d) := ord2ymd n in Some (mk_date y m d)
  else None.

(** [d - timedelta(days=k)]: [None] stands for the [OverflowError] that
    [date.__add__] raises when the ordinal leaves [1 .. MAXORDINAL]. *)
Definition date_sub_days (d : date) (k : Z) : option date :=
  let o := toordinal d - k in
  if (0 <? o) && (o <=? MAXORDINAL) then fromordinal o else None.

(** The day before [d] as the calendar has it: the previous day of the
    month, else the last day of the previous month, else 31 December of the
    previous year. *)
Definition day_before (d : date) : date :=
  if 1 <? day d then mk_date (year d) (month d) (day d - 1)
  else if 1 <? month d then
    mk_date (year d) (month d - 1) (days_in_month (year d) (month d - 1))
  else mk_date (year d - 1) 12 31.

End Calendar.

Import Calendar.

(** ** Aware datetimes *)

(** A [tzinfo] object: the key that tells it from other objects, and its
    offset in minutes east of UTC, taken as fixed.  [Asia/Manila] is at its
    standard offset of eight hours, which it has kept since daylight saving
    ended there on 1990-07-28; the offsets of earlier instants (daylight
    saving, local mean time) are not in this model, which reads the fields
    of a timestamp of the zone as the library does at any time but converts
    to and from the zone as the library does from then on. *)
Record tzinfo := mk_tz { tz_key : string; utcoffset_minutes : Z }.

Definition PH_TZ : tzinfo := mk_tz "Asia/Manila" 480.
Definition UTC : tzinfo := mk_tz "UTC" 0.

(** [datetime.time], without a zone. *)
Record time := mk_time
  { t_hour : Z; t_minute : Z; t_second : Z; t_microsecond : Z }.

(** [datetime.datetime] with its [tzinfo] set. *)
Record datetime := mk_datetime
  { dt_year : Z; dt_month : Z; dt_day : Z;
    dt_hour : Z; dt_minute : Z; dt_second : Z; dt_microsecond : Z;
    dt_tzinfo : tzinfo }.

(** [dt.date()] and [dt.time()]. *)
Definition dt_date (dt : datetime) : date :=
  mk_date (dt_year dt) (dt_month dt) (dt_day dt).

Definition dt_time (dt : datetime) : time :=
  mk_time (dt_hour dt) (dt_minute dt) (dt_second dt) (dt_microsecond dt).

Definition check_time_fields (h mi s us : Z) : bool :=
  (0 <=? h) && (h <=? 23) && (0 <=? mi) && (mi <=? 59)
  && (0 <=? s) && (s <=? 59) && (0 <=? us) && (us <=? 999999).

Definition check_tzinfo (tz : tzinfo) : bool :=
  (-1440 <? utcoffset_minutes tz) && (utcoffset_minutes tz <? 1440).

Definition check_datetime (dt : datetime) : bool :=
  check_date_fields (dt_year dt) (dt_month dt) (dt_day dt)
  && check_time_fields (dt_hour dt) (dt_minute dt) (dt_second dt)
       (dt_microsecond dt)
  && check_tzinfo (dt_tzinfo dt).

Definition valid_datetime (dt : datetime) : Prop := check_datetime dt = true.

(** Comparison of naive times, as a tuple of the four fields. *)
Definition time_lt (a b : time) : bool :=
  (t_hour a <? t_hour b)
  || ((t_hour a =? t_hour b)
      && ((t_minute a <? t_minute b)
          || ((t_minute a =? t_minute b)
              && ((t_second a <? t_second b)
                  || ((t_second a =? t_second b)
                      && (t_microsecond a <? t_microsecond b)))))).

Definition US_PER_SECOND : Z := 1000000.
Definition US_PER_DAY : Z := 86400 * US_PER_SECOND.

(** Microseconds of the wall-clock reading since the start of ordinal day 0,
    the zone being ignored. *)
Definition wall_micros (dt : datetime) : Z :=
  (toordinal (dt_date dt) * 86400
   + dt_hour dt * 3600 + dt_minute dt * 60 + dt_second dt) * US_PER_SECOND
  + dt_microsecond dt.

(** The instant on the UTC time line. *)
Definition utc_micros (dt : datetime) : Z :=
  wall_micros dt - utcoffset_minutes (dt_tzinfo dt) * 60 * US_PER_SECOND.

(** [a <= b] on aware datetimes, and [b - a] in microseconds.  The library
    compares the fields when the two offsets are equal and the UTC readings
    otherwise, and subtracts likewise; both are the comparison and the
    difference of the instants. *)
Definition datetime_le (a b : datetime) : bool := utc_micros a <=? utc_micros b.
Definition datetime_sub (b a : datetime) : Z := utc_micros b - utc_micros a.

(** ** Shift and attendance-day resolution *)

Definition shift_start_ph (dt : datetime) : datetime :=
  let d := dt_date dt in
  let h := dt_hour dt in
  if (8 <=? h) && (h <? 16) then
    mk_datetime (year d) (month d) (day d) 8 0 0 0 PH_TZ
  else if (16 <=? h) && (h <? 24) then
    mk_datetime (year d) (month d) (day d) 16 0 0 0 PH_TZ
  else
    mk_datetime (year d) (month d) (day d) 0 0 0 0 PH_TZ.

(** [None] is the [OverflowError] of the date subtraction. *)
Definition attendance_day_for (ph_dt : datetime) : option date :=
  if time_lt (dt_time ph_dt) (mk_time 6 0 0 0) then
    date_sub_days (dt_date ph_dt) 1
  else Some (dt_date ph_dt).

(** ** Zone conversion and ISO 8601 rendering *)

Global Instance tzinfo_eq_dec : EqDecision tzinfo.
Proof. solve_decision. Defined.

(** [dt + timedelta(microseconds=delta)] of [datetime.__add__]: the sum is
    renormalised into days and time of day, the zone is kept, and [None] is
    the [OverflowError] raised when the day leaves [1 .. MAXORDINAL]. *)
Definition datetime_add (dt : datetime) (delta : Z) : option datetime :=
  let w := wall_micros dt + delta in
  let days := w / US_PER_DAY in
  let rest := w mod US_PER_DAY in
  if (0 <? days) && (days <=? MAXORDINAL) then
    d ← fromordinal days;
    Some (mk_datetime (year d) (month d) (day d)
            (rest / (3600 * US_PER_SECOND))
            (rest / (60 * US_PER_SECOND) mod 60)
            (rest / US_PER_SECOND mod 60)
            (rest mod US_PER_SECOND)
            (dt_tzinfo dt))
  else None.

Definition replace_tzinfo (dt : datetime) (tz : tzinfo) : datetime :=
  mk_datetime (dt_year dt) (dt_month dt) (dt_day dt)
    (dt_hour dt) (dt_minute dt) (dt_second dt) (dt_microsecond dt) tz.

Definition offset_micros (tz : tzinfo) : Z :=
  utcoffset_minutes tz * 60 * US_PER_SECOND.

(** [dt.astimezone(tz)]: the zone object of [dt] itself gives [dt] back;
    otherwise the reading is moved to UTC, relabelled, and moved to [tz] by
    [tz.fromutc]. *)
Definition astimezone (dt : datetime) (tz : tzinfo) : option datetime :=
  if decide (tz = dt_tzinfo dt) then Some dt
  else
    utc ← datetime_add dt (- offset_micros (dt_tzinfo dt));
    datetime_add (replace_tzinfo utc tz) (offset_micros tz).

(** [datetime.now(tz)] when the system clock reads [clock] in UTC: the
    reading is labelled [tz] and moved there by [tz.fromutc]. *)
Definition datetime_now (clock : datetime) (tz : tzinfo) : option datetime :=
  datetime_add (replace_tzinfo clock tz) (offset_micros tz).

(** The character of a decimal digit. *)
Definition digit (d : Z) : ascii := ascii_of_N (48 + Z.to_N d).

(** [n] in decimal on exactly [width] digits, the ["%0<width>d"] of a
    non-negative [n] below [10 ^ width]. *)
Fixpoint zfill (width : nat) (n : Z) : string :=
  match width with
  | O => ""
  | S w => zfill w (n / 10) +:+ String (digit (n mod 10)) ""
  end.

Definition date_isoformat (d : date) : string :=
  zfill 4 (year d) +:+ "-" +:+ zfill 2 (month d) +:+ "-" +:+ zfill 2 (day d).

Definition format_offset (tz : tzinfo) : string :=
  let off := utcoffset_minutes tz in
  (if off <? 0 then "-" else "+")
  +:+ zfill 2 (Z.abs off / 60) +:+ ":" +:+ zfill 2 (Z.abs off mod 60).

(** [dt.isoformat()] of an aware datetime: the fraction is printed only when
    the microseconds are not zero. *)
Definition isoformat (dt : datetime) : string :=
  date_isoformat (dt_date dt) +:+ "T"
  +:+ zfill 2 (dt_hour dt) +:+ ":" +:+ zfill 2 (dt_minute dt)
  +:+ ":" +:+ zfill 2 (dt_second dt)
  +:+ (if dt_microsecond dt =? 0 then ""
       else "." +:+ zfill 6 (dt_microsecond dt))
  +:+ format_offset (dt_tzinfo dt).

(** *** A recogniser of ISO 8601 local timestamps with a numeric offset *)

Definition is_digit (c : ascii) : bool :=
  let n := N_of_ascii c in ((48 <=? n) && (n <=? 57))%N.

Fixpoint eat_digits (k : nat) (s : string) : option string :=
  match k with
  | O => Some s
  | S k' =>
      match s with
      | String c s' => if is_digit c then eat_digits k' s' else None
      | EmptyString => None
      end
  end.

Definition eat_char (c : ascii) (s : string) : option string :=
  match s with
  | String c' s' => if decide (c' = c) then Some s' else None
  | EmptyString => None
  end.

Definition eat_sign (s : string) : option string :=
  match s with
  | String c s' =>
      if decide (c = "+"%char) then Some s'
      else if decide (c = "-"%char) then Some s' else None
  | EmptyString => None
  end.

(** The recognisers of a list, one after the other. *)
Definition eat_all (ps : list (string → option string)) (s : string)
    : option string :=
  foldl (λ acc p, acc ≫= p) (Some s) ps.

(** [±HH:MM] up to the end of the string. *)
Definition eat_offset (s : string) : bool :=
  match
    eat_all [eat_sign; eat_digits 2; eat_char ":"%char; eat_digits 2] s
  with
  | Some EmptyString => true
  | _ => false
  end.

(** [YYYY-MM-DDTHH:MM:SS[.ffffff]±HH:MM]. *)
Definition iso8601_with_offset (s : string) : bool :=
  match
    eat_all
      [eat_digits 4; eat_char "-"%char; eat_digits 2; eat_char "-"%char;
       eat_digits 2; eat_char "T"%char; eat_digits 2; eat_char ":"%char;
       eat_digits 2; eat_char ":"%char; eat_digits 2] s
  with
  | Some rest =>
      match eat_all [eat_char "."%char; eat_digits 6] rest with
      | Some rest' => eat_offset rest'
      | None => eat_offset rest
      end
  | None => false
  end.

(** ** The sales store and its aggregation query *)

(** A row of [sales].  The columns are taken [NOT NULL] except [amount],
    whose [NULL]s the query's [COALESCE] provides for; amounts are whole
    numbers of an exact type, which [SUM] adds up exactly. *)
Record sale := mk_sale
  { sale_team : string; sale_page : string;
    sale_amount : option Z; sale_ts : datetime }.

(** A row of the result, [{"page": ..., "total": ...}].  The total is a
    double-precision number; the one a whole number is cast to is itself
    whole, and is held as such. *)
Record sales_total := mk_sales_total { page : string; total : Z }.

Global Instance sales_total_eq_dec : EqDecision sales_total.
Proof. solve_decision. Defined.

(** [SUM]: [NULL]s are skipped, and the sum of no value is [NULL]. *)
Definition sql_sum (xs : list (option Z)) : option Z :=
  foldr (λ x acc,
           match x, acc with
           | Some v, Some a => Some (v + a)
           | Some v, None => Some v
           | None, _ => acc
           end) None xs.

Definition coalesce (x : option Z) (d : Z) : Z := default d x.

(** [z::float], the cast of a whole number to double precision: [z] itself
    when it has at most 53 significant bits, and otherwise the nearest
    multiple of the unit in the last of its 53 leading bits, the even one of
    two that are equally near.  The exponent is not bounded: a sum beyond
    the range of the type (2 ^ 1024) is not within reach of a table. *)
Definition float_cast (z : Z) : Z :=
  let a := Z.abs z in
  let e := Z.log2 a - 52 in
  if e <=? 0 then z
  else
    let q := a / 2 ^ e in
    let r := a mod 2 ^ e in
    let half := 2 ^ (e - 1) in
    let q' := if (half <? r) || ((r =? half) && Z.odd q) then q + 1 else q in
    Z.sgn z * (q' * 2 ^ e).

(** [WHERE team=%s AND ts >= %s]. *)
Definition sales_where (team : string) (ts_from : datetime) (r : sale) : Prop :=
  sale_team r = team ∧ datetime_le ts_from (sale_ts r).

Global Instance sales_where_dec team ts_from r :
  Decision (sales_where team ts_from r).
Proof. unfold sales_where. apply _. Defined.

(** [ORDER BY total DESC]. *)
Definition total_desc (a b : sales_total) : Prop := total b ≤ total a.

Global Instance total_desc_dec : RelDecision total_desc.
Proof. intros a b. unfold total_desc. apply _. Defined.

(** [SELECT page, COALESCE(SUM(amount),0)::float AS total FROM sales
     WHERE team=%s AND ts >= %s GROUP BY page ORDER BY total DESC].
    The order among equal totals, which SQL leaves open, is the one of a
    stable sort of the groups. *)
Definition sales_by_page (team : string) (ts_from : datetime)
    (table : list sale) : list sales_total :=
  let matching := filter (sales_where team ts_from) table in
  let pages := remove_dups (sale_page <$> matching) in
  let groups :=
    (λ p, mk_sales_total p
            (float_cast
               (coalesce
                  (sql_sum
                     (sale_amount <$> filter (λ r, sale_page r = p) matching))
                  0))) <$> pages in
  merge_sort total_desc groups.

(** ** The attendance store and the grouping of clock-ins *)

Global Instance date_eq_dec : EqDecision date.
Proof. solve_decision. Defined.

(** A row of [attendance_clockins]. *)
Record clockin := mk_clockin
  { attendance_day : date; shift : string; page_key : string;
    user_name : string; is_cover : bool; ph_ts : datetime }.

(** One more sort key: rows are compared by [key], and by [rest] when their
    keys are equal. *)
Definition then_by {A K} `{EqDecision K} (key : A → K) (leb : K → K → bool)
    (rest : A → A → bool) (a b : A) : bool :=
  if decide (key a = key b) then rest a b else leb (key a) (key b).

(** [ORDER BY shift, page_key, is_cover, ph_ts], strings in code-point
    order, [false] before [true], timestamps by instant. *)
Definition clockin_leb : clockin → clockin → bool :=
  then_by shift String.leb
    (then_by page_key String.leb
       (then_by is_cover implb
          (λ a b, utc_micros (ph_ts a) <=? utc_micros (ph_ts b)))).

Definition clockin_le (a b : clockin) : Prop := clockin_leb a b.

Global Instance clockin_le_dec : RelDecision clockin_le.
Proof. intros a b. unfold clockin_le. apply _. Defined.

(** [SELECT shift, page_key, user_name, is_cover, ph_ts
     FROM attendance_clockins WHERE attendance_day=%s
     ORDER BY shift, page_key, is_cover, ph_ts]. *)
Definition clockins_of_day (att_day : date) (table : list clockin)
    : list clockin :=
  merge_sort clockin_le (filter (λ r, attendance_day r = att_day) table).

(** [{"name": ..., "ph_ts": ...}] *)
Record entry := mk_entry { name : string; entry_ph_ts : string }.

(** [{"users": [...], "covers": [...]}] *)
Record bucket := mk_bucket { users : list entry; covers : list entry }.

(** [d.setdefault(k, v)], used for its effect on [d]. *)
Definition setdefault `{Countable K} {V} (k : K) (v : V) (d : gmap K V)
    : gmap K V :=
  match d !! k with
  | Some _ => d
  | None => <[k := v]> d
  end.

(** The timestamp of a row as the entry shows it; [None] is the
    [OverflowError] of a conversion that leaves the years 1 to 9999. *)
Definition entry_of (r : clockin) : option entry :=
  ts ← astimezone (ph_ts r) PH_TZ;
  Some (mk_entry (user_name r) (isoformat ts)).

(** [b["covers"].append(x)] when the row is a cover, [b["users"].append(x)]
    otherwise. *)
Definition bucket_add (r : clockin) (x : entry) (b : bucket) : bucket :=
  if is_cover r then mk_bucket (users b) (covers b ++ [x])
  else mk_bucket (users b ++ [x]) (covers b).

(** The body of the loop over the rows. *)
Definition group_step (grouped : gmap string (gmap string bucket))
    (r : clockin) : option (gmap string (gmap string bucket)) :=
  let shift := shift r in
  let page_key := page_key r in
  let grouped := setdefault shift ∅ grouped in
  let pages :=
    setdefault page_key (mk_bucket [] []) (default ∅ (grouped !! shift)) in
  entry ← entry_of r;
  let b := bucket_add r entry (default (mk_bucket [] []) (pages !! page_key)) in
  Some (<[shift := <[page_key := b]> pages]> grouped).

Definition grouped_init : gmap string (gmap string bucket) :=
  {["prime" := ∅; "midshift" := ∅; "closing" := ∅]}.

(** [grouped] after the loop, or [None] when a row raised. *)
Definition group_rows (rows : list clockin)
    : option (gmap string (gmap string bucket)) :=
  foldl (λ acc r, grouped ← acc; group_step grouped r) (Some grouped_init) rows.

(** ** The HTTP surface *)

(** JSON values of the response bodies. *)
#[warnings="-register-all"]
Inductive json :=
  | JNull
  | JBool (b : bool)
  | JNum (z : Z)
  | JStr (s : string)
  | JArr (items : list json)
  | JObj (fields : list (string * json)).

Definition json_keys (j : json) : list string :=
  match j with
  | JObj fields => fst <$> fields
  | _ => []
  end.

Record response := mk_response { status_code : Z; body : json }.

(** What a request handler reads: the configured key, the system clock as
    its UTC reading, and the two stores ([None]: the connection attempt
    raises). *)
Record sales_db := mk_sales_db
  { teams_table : list string; sales_table : list sale }.

Record env := mk_env
  { INTERNAL_KEY : string;
    env_clock : datetime;
    SALES_DB : option sales_db;
    ATTEND_DB : option (list clockin) }.

(** The calls a handler makes to the clock, the resolvers and the stores, in
    the order in which it makes them. *)
Inductive call :=
  | call_now_ph
  | call_shift_start_ph
  | call_attendance_day_for
  | call_sales_conn
  | call_attend_conn
  | call_sales_execute
  | call_attend_execute.

Global Instance call_eq_dec : EqDecision call.
Proof. solve_decision. Defined.

(** How a handler ends: a value, an [HTTPException], or another exception. *)
Inductive outcome (A : Type) :=
  | Returned (a : A)
  | HTTPException (status_code : Z) (detail : string)
  | Unhandled.
Arguments Returned {A} a.
Arguments HTTPException {A} status_code detail.
Arguments Unhandled {A}.

Definition handler (A : Type) : Type := env → list call * outcome A.

Global Instance handler_ret : MRet handler := λ A a _, ([], Returned a).

Global Instance handler_bind : MBind handler := λ A B f m e,
  match m e with
  | (calls, Returned a) => let '(calls', o) := f a e in (calls ++ calls', o)
  | (calls, HTTPException s d) => (calls, HTTPException s d)
  | (calls, Unhandled) => (calls, Unhandled)
  end.

Definition raise_http {A} (status_code : Z) (detail : string) : handler A :=
  λ _, ([], HTTPException status_code detail).

(** A call that is logged and returns [a]. *)
Definition logged {A} (c : call) (a : A) : handler A :=
  λ _, ([c], Returned a).

(** A call that is logged and may raise. *)
Definition logged_partial {A} (c : call) (a : option A) : handler A :=
  λ _, ([c], match a with Some a => Returned a | None => Unhandled end).

(** A library operation that may raise. *)
Definition partial {A} (a : option A) : handler A :=
  λ _, ([], match a with Some a => Returned a | None => Unhandled end).

Definition sales_conn : handler sales_db :=
  λ e, logged_partial call_sales_conn (SALES_DB e) e.

Definition attend_conn : handler (list clockin) :=
  λ e, logged_partial call_attend_conn (ATTEND_DB e) e.

(** The module-level constant read from the configuration. *)
Definition configured_key : handler string :=
  λ e, ([], Returned (INTERNAL_KEY e)).

Definition require_internal_key (x_internal_key : option string)
    : handler unit :=
  key ← configured_key;
  if decide (x_internal_key ≠ Some key) then raise_http 401 "Unauthorized"
  else mret ().

Definition now_ph : handler datetime :=
  λ e, logged_partial call_now_ph (datetime_now (env_clock e) PH_TZ) e.

Definition health : handler json :=
  mret (JObj [("ok", JBool true)]).

(** [SELECT DISTINCT name FROM teams ORDER BY name ASC]. *)
Definition team_names (table : list string) : list string :=
  merge_sort String.le (remove_dups table).

Definition teams (x_internal_key : option string) : handler json :=
  require_internal_key x_internal_key;;
  conn ← sales_conn;
  names ← logged call_sales_execute (team_names (teams_table conn));
  mret (JArr (JStr <$> names)).

Definition json_of_sales_total (r : sales_total) : json :=
  JObj [("page", JStr (page r)); ("total", JNum (total r))].

Definition sales_shift (team : string) (x_internal_key : option string)
    : handler json :=
  require_internal_key x_internal_key;;
  now ← now_ph;
  start ← logged call_shift_start_ph (shift_start_ph now);
  conn ← sales_conn;
  ts_from ← partial (astimezone start UTC);
  rows ← logged call_sales_execute
           (sales_by_page team ts_from (sales_table conn));
  mret (JObj [("team", JStr team);
              ("shift_start_ph", JStr (isoformat start));
              ("updated_ph", JStr (isoformat now));
              ("rows", JArr (json_of_sales_total <$> rows))]).

Definition json_of_entry (x : entry) : json :=
  JObj [("name", JStr (name x)); ("ph_ts", JStr (entry_ph_ts x))].

Definition json_of_bucket (b : bucket) : json :=
  JObj [("users", JArr (json_of_entry <$> users b));
        ("covers", JArr (json_of_entry <$> covers b))].

(** The members of an object are listed in the order of [map_to_list], [gmap]
    keeping no insertion order. *)
Definition json_of_grouped (grouped : gmap string (gmap string bucket))
    : json :=
  JObj (prod_map id
          (λ pages, JObj (prod_map id json_of_bucket <$> map_to_list pages))
        <$> map_to_list grouped).

Definition attendance_today (x_internal_key : option string) : handler json :=
  require_internal_key x_internal_key;;
  now ← now_ph;
  att_day ← logged_partial call_attendance_day_for (attendance_day_for now);
  conn ← attend_conn;
  rows ← logged call_attend_execute (clockins_of_day att_day conn);
  grouped ← partial (group_rows rows);
  mret (JObj [("attendance_day", JStr (date_isoformat att_day));
              ("updated_ph", JStr (isoformat now));
              ("data", json_of_grouped grouped)]).

(** *** Routing and parameter validation of the framework *)

Inductive route := Health | Teams | SalesShift | AttendanceToday.

(** A [GET] request: its route, the [x-internal-key] header and the [team]
    query parameter, each absent or present. *)
Record request := mk_request
  { req_route : route;
    req_x_internal_key : option string;
    req_team : option string }.

(** The response made of a handler's outcome: 200 with the returned value,
    the status and detail of an [HTTPException], 500 for another exception. *)
Definition respond (h : handler json) : env → list call * response :=
  λ e, let '(calls, o) := h e in
       (calls,
        match o with
        | Returned j => mk_response 200 j
        | HTTPException s d => mk_response s (JObj [("detail", JStr d)])
        | Unhandled => mk_response 500 (JStr "Internal Server Error")
        end).

(** The framework's answer to a request that lacks a required parameter: the
    handler is not called.  The body is abridged to the location of the
    parameter. *)
Definition missing_parameter (name : string) : response :=
  mk_response 422
    (JObj [("detail",
            JArr [JObj [("loc", JArr [JStr "query"; JStr name])]])]).

(** The application: parameters are validated by the framework against the
    handler's signature, then the handler runs. *)
Definition app (req : request) : env → list call * response :=
  match req_route req with
  | Health => respond health
  | Teams => respond (teams (req_x_internal_key req))
  | SalesShift =>
      match req_team req with
      | Some team => respond (sales_shift team (req_x_internal_key req))
      | None => λ _, ([], missing_parameter "team")
      end
  | AttendanceToday => respond (attendance_today (req_x_internal_key req))
  end.

(** ** Reference readings used in the statements *)

(** The sum of the amounts of the rows, a [NULL] amount counting for
    nothing. *)
Definition sum_amounts (rows : list sale) : Z :=
  foldr (λ r acc, default 0 (sale_amount r) + acc) 0 rows.

(** [t] is the double-precision number nearest to the whole number [s]: a
    multiple of the unit [2 ^ e] of the last of the 53 leading bits of [s],
    at most half a unit away from [s], and the even multiple when two are
    equally near. *)
Definition nearest_double (s t : Z) : Prop :=
  let e := Z.max 0 (Z.log2 (Z.abs s) - 52) in
  (2 ^ e | t)
  ∧ 2 * Z.abs (t - s) ≤ 2 ^ e
  ∧ (2 * Z.abs (t - s) = 2 ^ e → Z.even (t / 2 ^ e) = true).

(** The rows of the bucket of shift [s] and key [p], in the order of [rows]. *)
Definition bucket_rows (s p : string) (rows : list clockin) : list clockin :=
  filter (λ r, shift r = s ∧ page_key r = p) rows.

(** [grouped[s][p]], when both keys are there. *)
Definition lookup_bucket (grouped : gmap string (gmap string bucket))
    (s p : string) : option bucket :=
  pages ← grouped !! s; pages !! p.

(** The sequence [xs] holds, in order, the entries of the rows [rs]. *)
Definition entries_of (rs : list clockin) (xs : list entry) : Prop :=
  Forall2 (λ r x, entry_of r = Some x) rs xs.

(** Clock-in instants in ascending order. *)
Definition ascending (rs : list clockin) : Prop :=
  StronglySorted (λ a b, utc_micros (ph_ts a) ≤ utc_micros (ph_ts b)) rs.


(** What the loop has built after the rows [rows]. *)
Record grouped_of (rows : list clockin)
    (grouped : gmap string (gmap string bucket)) : Prop :=
  { grouped_dom :
      dom grouped
      = {["prime"; "midshift"; "closing"]} ∪ list_to_set (shift <$> rows);
    grouped_buckets : ∀ s p,
      match lookup_bucket grouped s p with
      | Some b =>
          bucket_rows s p rows ≠ []
          ∧ entries_of (filter (λ r, is_cover r = false) (bucket_rows s p rows))
              (users b)
          ∧ entries_of (filter (λ r, is_cover r = true) (bucket_rows s p rows))
              (covers b)
      | None => bucket_rows s p rows = []
      end }.


(** ** Start-up *)

(** How the import of the module ends: the three settings, or the
    [RuntimeError] of a setting that is not there. *)
Inductive startup :=
  | Started (sales_db_url attend_db_url internal_key : string)
  | RuntimeError (message : string).

(** [not v] for the result of [os.getenv]: [None] and the empty string. *)
Definition not_set (v : option string) : bool :=
  match v with
  | None => true
  | Some s => bool_decide (s = "")
  end.

(** The settings are read from the environment and checked in this order. *)
Definition load_settings (getenv : string → option string) : startup :=
  let sales_db := getenv "SALES_DATABASE_URL_RO" in
  let attend_db := getenv "ATTEND_DATABASE_URL_RO" in
  let internal_key := getenv "INTERNAL_KEY" in
  if not_set sales_db then RuntimeError "SALES_DATABASE_URL_RO not set"
  else if not_set attend_db then RuntimeError "ATTEND_DATABASE_URL_RO not set"
  else if not_set internal_key then RuntimeError "INTERNAL_KEY not set"
  else Started (default "" sales_db) (default "" attend_db)
         (default "" internal_key).

(** The sum of the totals of the rows of a result. *)
Definition sum_totals (rows : list sales_total) : Z :=
  foldr (λ x acc, total x + acc) 0 rows.

(** The sum of the magnitudes of the amounts of the rows. *)
Definition sum_magnitudes (rows : list sale) : Z :=
  foldr (λ r acc, Z.abs (default 0 (sale_amount r)) + acc) 0 rows.

(** The calls of a request to a route that nothing stops, in order. *)
Definition store_calls_of (r : route) : list call :=
  match r with
  | Health => []
  | Teams => [call_sales_conn; call_sales_execute]
  | SalesShift =>
      [call_now_ph; call_shift_start_ph; call_sales_conn; call_sales_execute]
  | AttendanceToday =>
      [call_now_ph; call_attendance_day_for; call_attend_conn;
       call_attend_execute]
  end.

(** * Properties *)

(** ** Ordinals and calendar dates *)

Section calendar_facts.

Lemma days_before_year_cycles a b c d :
  0 <= b <= 3 -> 0 <= c <= 24 -> 0 <= d <= 3 ->
  days_before_year (a * 400 + 1 + b * 100 + c * 4 + d) =
  a * DI400Y + b * DI100Y + c * DI4Y + d * 365.
Proof.
  intros Hb Hc Hd. unfold days_before_year, DI400Y, DI100Y, DI4Y. cbv zeta.
  Z.div_mod_to_equations. lia.
Qed.

Lemma is_leap_cycles a b c d :
  0 <= b <= 3 -> 0 <= c <= 24 -> 0 <= d <= 3 ->
  is_leap (a * 400 + 1 + b * 100 + c * 4 + d) =
  (d =? 3) && (negb (c =? 24) || (b =? 3)).
Proof.
  intros Hb Hc Hd. unfold is_leap.
  apply eq_true_iff_eq.
  rewrite !andb_true_iff, !orb_true_iff, !negb_true_iff, !Z.eqb_eq, !Z.eqb_neq.
  Z.div_mod_to_equations. lia.
Qed.

Lemma cycle_split n0 :
  0 <= n0 ->
  let n400 := n0 / DI400Y in
  let r400 := n0 mod DI400Y in
  let n100 := r400 / DI100Y in
  let r100 := r400 mod DI100Y in
  let n4 := r100 / DI4Y in
  let r4 := r100 mod DI4Y in
  let n1 := r4 / 365 in
  let r1 := r4 mod 365 in
  n0 = n400 * DI400Y + n100 * DI100Y + n4 * DI4Y + n1 * 365 + r1
  /\ 0 <= n400 /\ 0 <= n100 <= 4 /\ 0 <= n4 <= 24 /\ 0 <= n1 <= 4
  /\ 0 <= r1 <= 364
  /\ (n100 = 4 -> n4 = 0 /\ n1 = 0 /\ r1 = 0)
  /\ (n1 = 4 -> r1 = 0 /\ (n4 = 24 -> n100 = 4)).
Proof.
  intros H0. cbv zeta. unfold DI400Y, DI100Y, DI4Y.
  Z.div_mod_to_equations. lia.
Qed.

Lemma month_cases m : 1 <= m <= 12 ->
  m = 1 \/ m = 2 \/ m = 3 \/ m = 4 \/ m = 5 \/ m = 6 \/ m = 7 \/ m = 8
  \/ m = 9 \/ m = 10 \/ m = 11 \/ m = 12.
Proof. lia. Qed.

Lemma ord2ymd_spec n :
  1 <= n ->
  let '(y, m, d) := ord2ymd n in
  ymd2ord y m d = n /\ 1 <= m <= 12 /\ 1 <= d <= days_in_month y m
  /\ 1 <= y /\ (n <= MAXORDINAL -> y <= MAXYEAR).
Proof.
  intros Hn. unfold ord2ymd. cbv zeta.
  pose proof (cycle_split (n - 1) ltac:(lia)) as Hc. cbv zeta in Hc.
  set (n400 := (n - 1) / DI400Y) in *.
  set (r400 := (n - 1) mod DI400Y) in *.
  set (n100 := r400 / DI100Y) in *.
  set (r100 := r400 mod DI100Y) in *.
  set (n4 := r100 / DI4Y) in *.
  set (r4 := r100 mod DI4Y) in *.
  set (n1 := r4 / 365) in *.
  set (r1 := r4 mod 365) in *.
  clearbody n400 n100 n4 n1 r1. clear r400 r100 r4.
  destruct Hc as (Hsplit & H400 & H100 & H4 & H1 & Hr & Hlast400 & Hlast4).
  unfold MAXORDINAL, MAXYEAR, DI400Y, DI100Y, DI4Y in *.
  destruct ((n1 =? 4) || (n100 =? 4)) eqn:Hend.
  - (* the last day of a leap year *)
    assert (Hy : n400 * 400 + 1 + n100 * 100 + n4 * 4 + n1 - 1 =
                 n400 * 400 + 1 + (if n100 =? 4 then 3 else n100) * 100
                 + (if n100 =? 4 then 24 else n4) * 4 + 3).
    { apply orb_true_iff in Hend. rewrite !Z.eqb_eq in Hend.
      destruct (n100 =? 4) eqn:E; [apply Z.eqb_eq in E|apply Z.eqb_neq in E]; lia. }
    rewrite Hy. unfold ymd2ord, days_before_month, days_in_month.
    rewrite days_before_year_cycles, is_leap_cycles;
      try (destruct (n100 =? 4) eqn:E;
           [apply Z.eqb_eq in E|apply Z.eqb_neq in E]; lia).
    apply orb_true_iff in Hend. rewrite !Z.eqb_eq in Hend.
    unfold DI400Y, DI100Y, DI4Y.
    destruct (n100 =? 4) eqn:E; [apply Z.eqb_eq in E|apply Z.eqb_neq in E].
    + simpl. lia.
    + assert (n1 = 4) by lia.
      assert (n4 <> 24) by lia.
      replace (n4 =? 24) with false by (symmetry; apply Z.eqb_neq; lia).
      simpl. lia.
  - apply orb_false_iff in Hend. rewrite !Z.eqb_neq in Hend.
    rewrite Z.shiftr_div_pow2 by lia.
    change (2 ^ 5) with 32.
    set (leapyear := (n1 =? 3) && (negb (n4 =? 24) || (n100 =? 3))).
    set (m := (r1 + 50) / 32).
    assert (Hm : 32 * m <= r1 + 50 < 32 * m + 32).
    { subst m. Z.div_mod_to_equations. lia. }
    clearbody m.
    assert (Hleap : is_leap (n400 * 400 + 1 + n100 * 100 + n4 * 4 + n1) = leapyear).
    { apply is_leap_cycles; lia. }
    assert (Hdby : days_before_year (n400 * 400 + 1 + n100 * 100 + n4 * 4 + n1)
                   = n400 * 146097 + n100 * 36524 + n4 * 1461 + n1 * 365).
    { rewrite days_before_year_cycles by lia. reflexivity. }
    clearbody leapyear.
    destruct (month_cases m ltac:(lia)) as
      [->|[->|[->|[->|[->|[->|[->|[->|[->|[->|[->| ->]]]]]]]]]]];
      destruct leapyear; simpl;
      match goal with
      | |- context [?a <? ?b] =>
          destruct (Z.ltb_spec a b)
      end;
      unfold ymd2ord, days_before_month, days_in_month;
      rewrite Hleap, Hdby;
      simpl;
      lia.
Qed.

Lemma days_before_year_succ y :
  days_before_year (y + 1) = days_before_year y + 365 + (if is_leap y then 1 else 0).
Proof.
  unfold days_before_year, is_leap. cbv zeta.
  destruct (y mod 4 =? 0) eqn:E4; destruct (y mod 100 =? 0) eqn:E100;
    destruct (y mod 400 =? 0) eqn:E400; simpl;
    rewrite ?Z.eqb_eq, ?Z.eqb_neq in *;
    Z.div_mod_to_equations; lia.
Qed.

Lemma days_before_year_mono y y' :
  y <= y' -> days_before_year y <= days_before_year y'.
Proof.
  intros H. unfold days_before_year. cbv zeta.
  Z.div_mod_to_equations. lia.
Qed.

Lemma check_date_fields_true y m d :
  check_date_fields y m d = true <->
  MINYEAR <= y <= MAXYEAR /\ 1 <= m <= 12 /\ 1 <= d <= days_in_month y m.
Proof.
  unfold check_date_fields.
  rewrite !andb_true_iff, !Z.leb_le. tauto.
Qed.

(** The days of a year lie between the year's start and the next one's. *)
Lemma ymd2ord_range y m d :
  1 <= m <= 12 -> 1 <= d <= days_in_month y m ->
  days_before_year y < ymd2ord y m d <= days_before_year (y + 1).
Proof.
  intros Hm Hd. rewrite days_before_year_succ.
  unfold ymd2ord, days_before_month, days_in_month in *.
  destruct (month_cases m Hm) as
    [->|[->|[->|[->|[->|[->|[->|[->|[->|[->|[->| ->]]]]]]]]]]];
    destruct (is_leap y); simpl in *; lia.
Qed.

Lemma days_before_month_step y m :
  1 <= m <= 11 ->
  days_before_month y (m + 1) = days_before_month y m + days_in_month y m.
Proof.
  intros Hm. unfold days_before_month, days_in_month.
  assert (H : m = 1 \/ m = 2 \/ m = 3 \/ m = 4 \/ m = 5 \/ m = 6 \/ m = 7
              \/ m = 8 \/ m = 9 \/ m = 10 \/ m = 11) by lia.
  destruct H as [->|[->|[->|[->|[->|[->|[->|[->|[->|[->| ->]]]]]]]]]];
    destruct (is_leap y); reflexivity.
Qed.

Lemma days_before_month_mono y m m' :
  1 <= m -> m <= m' -> m' <= 12 ->
  days_before_month y m <= days_before_month y m'.
Proof.
  intros H1 Hle H12. unfold days_before_month.
  destruct (month_cases m ltac:(lia)) as
    [->|[->|[->|[->|[->|[->|[->|[->|[->|[->|[->| ->]]]]]]]]]]];
    destruct (month_cases m' ltac:(lia)) as
    [->|[->|[->|[->|[->|[->|[->|[->|[->|[->|[->| ->]]]]]]]]]]];
    try lia; destruct (is_leap y); simpl; lia.
Qed.

Lemma ymd2ord_inj y m d y' m' d' :
  1 <= m <= 12 -> 1 <= d <= days_in_month y m ->
  1 <= m' <= 12 -> 1 <= d' <= days_in_month y' m' ->
  ymd2ord y m d = ymd2ord y' m' d' ->
  y = y' /\ m = m' /\ d = d'.
Proof.
  intros Hm Hd Hm' Hd' Heq.
  pose proof (ymd2ord_range y m d Hm Hd) as Hr.
  pose proof (ymd2ord_range y' m' d' Hm' Hd') as Hr'.
  assert (y = y') as <-.
  { destruct (Z.lt_trichotomy y y') as [Hlt|[?|Hlt]]; [|assumption|].
    - pose proof (days_before_year_mono (y + 1) y' ltac:(lia)). lia.
    - pose proof (days_before_year_mono (y' + 1) y ltac:(lia)). lia. }
  split; [reflexivity|].
  unfold ymd2ord in Heq.
  assert (m = m') as <-.
  { destruct (Z.lt_trichotomy m m') as [Hlt|[?|Hlt]]; [|assumption|].
    - pose proof (days_before_month_step y m ltac:(lia)).
      pose proof (days_before_month_mono y (m + 1) m' ltac:(lia) ltac:(lia) ltac:(lia)).
      lia.
    - pose proof (days_before_month_step y m' ltac:(lia)).
      pose proof (days_before_month_mono y (m' + 1) m ltac:(lia) ltac:(lia) ltac:(lia)).
      lia. }
  split; [reflexivity|lia].
Qed.

Lemma toordinal_bounds d :
  valid_date d -> 1 <= toordinal d <= MAXORDINAL.
Proof.
  unfold valid_date, toordinal. rewrite check_date_fields_true.
  intros (Hy & Hm & Hd).
  pose proof (ymd2ord_range _ _ _ Hm Hd) as Hr.
  unfold MINYEAR, MAXYEAR in Hy.
  pose proof (days_before_year_mono 1 (year d) ltac:(lia)) as H1.
  pose proof (days_before_year_mono (year d + 1) 10000 ltac:(lia)) as H2.
  change (days_before_year 1) with 0 in H1.
  change (days_before_year 10000) with 3652059 in H2.
  unfold MAXORDINAL. lia.
Qed.

Lemma fromordinal_toordinal n :
  1 <= n <= MAXORDINAL ->
  exists d, fromordinal n = Some d /\ valid_date d /\ toordinal d = n.
Proof.
  intros Hn. unfold fromordinal.
  replace ((1 <=? n) && (n <=? MAXORDINAL)) with true
    by (symmetry; apply andb_true_iff; rewrite !Z.leb_le; lia).
  pose proof (ord2ymd_spec n ltac:(lia)) as Hs.
  destruct (ord2ymd n) as [[y m] d].
  destruct Hs as (Hord & Hm & Hd & Hy1 & Hy2).
  exists (mk_date y m d). split; [reflexivity|]. split; [|exact Hord].
  unfold valid_date. simpl. apply check_date_fields_true.
  unfold MINYEAR. lia.
Qed.

Lemma toordinal_fromordinal d :
  valid_date d -> fromordinal (toordinal d) = Some d.
Proof.
  intros Hv. pose proof (toordinal_bounds d Hv) as Hb.
  destruct (fromordinal_toordinal _ Hb) as (d' & Hf & Hv' & Ho).
  rewrite Hf. f_equal.
  unfold valid_date in *. rewrite check_date_fields_true in Hv, Hv'.
  destruct Hv as (_ & Hm & Hd), Hv' as (_ & Hm' & Hd').
  destruct (ymd2ord_inj _ _ _ _ _ _ Hm' Hd' Hm Hd Ho) as (? & ? & ?).
  destruct d, d'; simpl in *; congruence.
Qed.

Lemma day_before_ordinal d :
  valid_date d -> d <> mk_date 1 1 1 ->
  valid_date (day_before d) /\ toordinal (day_before d) = toordinal d - 1.
Proof.
  unfold valid_date, toordinal, day_before.
  rewrite check_date_fields_true. intros (Hy & Hm & Hd) Hne.
  unfold MINYEAR, MAXYEAR in *.
  destruct (Z.ltb_spec 1 (day d)) as [Hday|Hday]; cbn [year month day].
  - rewrite check_date_fields_true. unfold ymd2ord, MINYEAR, MAXYEAR. lia.
  - assert (day d = 1) as Hd1 by lia.
    destruct (Z.ltb_spec 1 (month d)) as [Hmo|Hmo]; cbn [year month day].
    + rewrite check_date_fields_true. unfold MINYEAR, MAXYEAR.
      pose proof (days_before_month_step (year d) (month d - 1) ltac:(lia)) as Hs.
      replace (month d - 1 + 1) with (month d) in Hs by lia.
      assert (1 <= days_in_month (year d) (month d - 1)).
      { unfold days_in_month.
        destruct (month_cases (month d) Hm) as
          [E|[E|[E|[E|[E|[E|[E|[E|[E|[E|[E|E]]]]]]]]]]]; rewrite E;
          destruct (is_leap (year d)); simpl; lia. }
      unfold ymd2ord. lia.
    + assert (month d = 1) as Hm1 by lia.
      assert (year d <> 1) as Hy1.
      { intros E. apply Hne. destruct d; simpl in *; congruence. }
      rewrite check_date_fields_true. unfold MINYEAR, MAXYEAR.
      unfold ymd2ord. rewrite Hm1, Hd1.
      pose proof (days_before_year_succ (year d - 1)) as Hs.
      replace (year d - 1 + 1) with (year d) in Hs by lia.
      unfold days_before_month, days_in_month.
      destruct (is_leap (year d - 1)); destruct (is_leap (year d)); simpl; lia.
Qed.

Lemma date_sub_days_one d :
  valid_date d -> d <> mk_date 1 1 1 ->
  date_sub_days d 1 = Some (day_before d).
Proof.
  intros Hv Hne. destruct (day_before_ordinal d Hv Hne) as [Hv' Ho].
  pose proof (toordinal_bounds _ Hv) as Hb.
  pose proof (toordinal_bounds _ Hv') as Hb'.
  unfold date_sub_days. cbv zeta. rewrite <- Ho.
  replace ((0 <? toordinal (day_before d))
           && (toordinal (day_before d) <=? MAXORDINAL)) with true
    by (symmetry; apply andb_true_iff; rewrite Z.ltb_lt, Z.leb_le; lia).
  apply toordinal_fromordinal, Hv'.
Qed.

End calendar_facts.

(** ** Shift starts and attendance days *)

Lemma check_time_fields_true h mi s us :
  check_time_fields h mi s us = true <->
  0 <= h <= 23 /\ 0 <= mi <= 59 /\ 0 <= s <= 59 /\ 0 <= us <= 999999.
Proof.
  unfold check_time_fields. rewrite !andb_true_iff, !Z.leb_le. tauto.
Qed.

Lemma valid_datetime_fields t :
  valid_datetime t <->
  valid_date (dt_date t)
  /\ (0 <= dt_hour t <= 23 /\ 0 <= dt_minute t <= 59
      /\ 0 <= dt_second t <= 59 /\ 0 <= dt_microsecond t <= 999999)
  /\ -1440 < utcoffset_minutes (dt_tzinfo t) < 1440.
Proof.
  unfold valid_datetime, check_datetime, valid_date, check_tzinfo.
  rewrite !andb_true_iff, check_time_fields_true, !Z.ltb_lt. simpl. tauto.
Qed.

Lemma shift_start_ph_cases t :
  (8 <= dt_hour t < 16 /\
   shift_start_ph t =
   mk_datetime (dt_year t) (dt_month t) (dt_day t) 8 0 0 0 PH_TZ)
  \/ (16 <= dt_hour t < 24 /\
      shift_start_ph t =
      mk_datetime (dt_year t) (dt_month t) (dt_day t) 16 0 0 0 PH_TZ)
  \/ ((dt_hour t < 8 \/ 24 <= dt_hour t) /\
      shift_start_ph t =
      mk_datetime (dt_year t) (dt_month t) (dt_day t) 0 0 0 0 PH_TZ).
Proof.
  unfold shift_start_ph. cbv zeta. simpl.
  destruct (Z.leb_spec 8 (dt_hour t)); destruct (Z.ltb_spec (dt_hour t) 16);
    destruct (Z.leb_spec 16 (dt_hour t)); destruct (Z.ltb_spec (dt_hour t) 24);
    simpl; auto; try lia; right; right; split; auto; lia.
Qed.

(** C1, as the code has it.  For every timestamp [t] of the zone of the
    organisation, whose hour and date are the local ones, [shift_start_ph t]
    is on the date of [t] with minutes, seconds and microseconds zero, in
    the zone of the organisation; its hour is 8 when the hour of [t] is in
    [8, 16), 16 when it is in [16, 24) and 0 when it is in [0, 8).  The
    hours 8, 16 and 0 themselves belong to the shift that starts there. *)
Theorem shift_start_ph_spec (t : datetime) :
  valid_datetime t -> dt_tzinfo t = PH_TZ ->
  let s := shift_start_ph t in
  astimezone t PH_TZ = Some t
  /\ valid_datetime s
  /\ dt_date s = dt_date t
  /\ dt_minute s = 0 /\ dt_second s = 0 /\ dt_microsecond s = 0
  /\ dt_tzinfo s = PH_TZ
  /\ (8 <= dt_hour t < 16 -> dt_hour s = 8)
  /\ (16 <= dt_hour t < 24 -> dt_hour s = 16)
  /\ (0 <= dt_hour t < 8 -> dt_hour s = 0)
  /\ (dt_hour t = 8 -> dt_hour s = 8)
  /\ (dt_hour t = 16 -> dt_hour s = 16)
  /\ (dt_hour t = 0 -> dt_hour s = 0).
Proof.
  intros Hv Hz. cbv zeta.
  split; [unfold astimezone; rewrite decide_True by (symmetry; exact Hz);
          reflexivity|].
  apply valid_datetime_fields in Hv. destruct Hv as (Hd & Ht & _).
  destruct (shift_start_ph_cases t) as [[Hh ->]|[[Hh ->]|[Hh ->]]];
    (split; [apply valid_datetime_fields; simpl; repeat split; try lia;
             exact Hd|]);
    simpl; repeat split; intros; try reflexivity; lia.
Qed.

Lemma shift_start_ph_spec_witness :
  let t := mk_datetime 2024 3 10 16 0 0 0 PH_TZ in
  valid_datetime t /\ dt_tzinfo t = PH_TZ
  /\ dt_hour (shift_start_ph t) = 16.
Proof.
  cbv zeta.
  assert (Hv : valid_datetime (mk_datetime 2024 3 10 16 0 0 0 PH_TZ))
    by reflexivity.
  split; [exact Hv|]. split; [reflexivity|].
  apply (shift_start_ph_spec (mk_datetime 2024 3 10 16 0 0 0 PH_TZ) Hv eq_refl).
  reflexivity.
Defined.

(** C1 as stated fails for a timestamp of another zone, whose hour is not
    the local one: 08:30 at UTC+09:00 is 07:30 in the zone of the
    organisation, in the shift that starts at 00:00, and the shift start
    returned is 08:00. *)
Lemma shift_start_ph_reads_own_hour :
  let t := mk_datetime 2024 3 10 8 30 0 0 (mk_tz "Asia/Tokyo" 540) in
  valid_datetime t
  /\ astimezone t PH_TZ = Some (mk_datetime 2024 3 10 7 30 0 0 PH_TZ)
  /\ shift_start_ph t = mk_datetime 2024 3 10 8 0 0 0 PH_TZ
  /\ dt_hour (shift_start_ph t) <> 0.
Proof.
  cbv zeta. split; [reflexivity|]. split; [vm_compute; reflexivity|].
  split; [reflexivity|]. vm_compute. discriminate.
Qed.

Lemma time_lt_six t :
  valid_datetime t ->
  time_lt (dt_time t) (mk_time 6 0 0 0) = true <-> dt_hour t < 6.
Proof.
  intros Hv. apply valid_datetime_fields in Hv. destruct Hv as (_ & Ht & _).
  unfold time_lt. simpl.
  rewrite !orb_true_iff, !andb_true_iff, !Z.ltb_lt, !Z.eqb_eq. lia.
Qed.

(** C2, as the code has it.  For every timestamp [t] of the zone of the
    organisation, other than one before 06:00 on 0001-01-01,
    [attendance_day_for t] is the day before the date of [t] when the time
    of day of [t] is strictly before 06:00, and the date of [t] otherwise;
    06:00:00 itself belongs to the new day.  At 05:59:59 on 2024-03-10 the
    result is 2024-03-09, at 06:00:00 it is 2024-03-10. *)
Theorem attendance_day_for_spec (t : datetime) :
  valid_datetime t -> dt_tzinfo t = PH_TZ ->
  (dt_date t = mk_date 1 1 1 -> 6 <= dt_hour t) ->
  astimezone t PH_TZ = Some t
  /\ (time_lt (dt_time t) (mk_time 6 0 0 0) = true <-> dt_hour t < 6)
  /\ (dt_hour t < 6 ->
      attendance_day_for t = Some (day_before (dt_date t))
      /\ valid_date (day_before (dt_date t))
      /\ toordinal (day_before (dt_date t)) = toordinal (dt_date t) - 1)
  /\ (6 <= dt_hour t -> attendance_day_for t = Some (dt_date t))
  /\ attendance_day_for (mk_datetime 2024 3 10 5 59 59 0 PH_TZ)
     = Some (mk_date 2024 3 9)
  /\ attendance_day_for (mk_datetime 2024 3 10 6 0 0 0 PH_TZ)
     = Some (mk_date 2024 3 10).
Proof.
  intros Hv Hz Hfirst. pose proof (time_lt_six t Hv) as Hsix.
  pose proof Hv as Hf. apply valid_datetime_fields in Hf.
  destruct Hf as (Hd & _ & _).
  split; [unfold astimezone; rewrite decide_True by (symmetry; exact Hz);
          reflexivity|].
  split; [exact Hsix|]. split; [|split; [|split; reflexivity]].
  - intros Hh.
    assert (Hne : dt_date t <> mk_date 1 1 1) by (intros E; apply Hfirst in E; lia).
    apply Hsix in Hh. unfold attendance_day_for. rewrite Hh.
    split; [apply date_sub_days_one; assumption|].
    apply day_before_ordinal; assumption.
  - intros Hh. unfold attendance_day_for.
    destruct (time_lt (dt_time t) (mk_time 6 0 0 0)) eqn:E; [|reflexivity].
    apply (time_lt_six t Hv) in E. lia.
Qed.

Lemma attendance_day_for_spec_witness :
  let t := mk_datetime 1 1 1 6 0 0 0 PH_TZ in
  valid_datetime t /\ dt_tzinfo t = PH_TZ
  /\ (dt_date t = mk_date 1 1 1 -> 6 <= dt_hour t)
  /\ attendance_day_for t = Some (mk_date 1 1 1).
Proof.
  cbv zeta.
  assert (Hv : valid_datetime (mk_datetime 1 1 1 6 0 0 0 PH_TZ))
    by reflexivity.
  assert (Hfirst : dt_date (mk_datetime 1 1 1 6 0 0 0 PH_TZ) = mk_date 1 1 1
                   -> 6 <= dt_hour (mk_datetime 1 1 1 6 0 0 0 PH_TZ))
    by (intros _; simpl; lia).
  split; [exact Hv|]. split; [reflexivity|]. split; [exact Hfirst|].
  destruct (attendance_day_for_spec _ Hv eq_refl Hfirst)
    as (_ & _ & _ & Hafter & _).
  apply Hafter. simpl. lia.
Defined.

(** C2 as stated fails before 06:00 on 0001-01-01: no date is returned, the
    subtraction of a day from the first representable date overflows. *)
Lemma attendance_day_for_first_day :
  let t := mk_datetime 1 1 1 5 59 59 0 PH_TZ in
  valid_datetime t
  /\ time_lt (dt_time t) (mk_time 6 0 0 0) = true
  /\ ~ (exists d, attendance_day_for t = Some d).
Proof.
  cbv zeta. split; [reflexivity|]. split; [reflexivity|].
  intros [d Hd]. vm_compute in Hd. discriminate.
Qed.

(** The time of day and the date read are those of the timestamp in its own
    zone: 23:00 on 2024-03-10 in UTC is 07:00 on 2024-03-11 in the zone of
    the organisation, and the day returned is 2024-03-10. *)
Lemma attendance_day_for_other_zone :
  let t := mk_datetime 2024 3 10 23 0 0 0 UTC in
  valid_datetime t
  /\ astimezone t PH_TZ = Some (mk_datetime 2024 3 11 7 0 0 0 PH_TZ)
  /\ attendance_day_for t = Some (mk_date 2024 3 10).
Proof.
  cbv zeta. split; [reflexivity|]. split; vm_compute; reflexivity.
Qed.

(** C10, as the code has it.  [shift_start_ph] is idempotent on every aware
    timestamp; for a timestamp [t] in the zone of the organisation,
    [shift_start_ph t <= t] and [t] is less than eight hours after it. *)
Theorem shift_start_ph_idempotent_floor (t : datetime) :
  shift_start_ph (shift_start_ph t) = shift_start_ph t
  /\ (valid_datetime t -> dt_tzinfo t = PH_TZ ->
      datetime_le (shift_start_ph t) t = true
      /\ 0 <= datetime_sub t (shift_start_ph t) < 8 * 3600 * US_PER_SECOND).
Proof.
  split.
  - destruct (shift_start_ph_cases t) as [[_ ->]|[[_ ->]|[_ ->]]]; reflexivity.
  - intros Hv Hz. apply valid_datetime_fields in Hv.
    destruct Hv as (_ & Ht & _).
    unfold datetime_le, datetime_sub. rewrite Z.leb_le.
    assert (Hgoal : 0 <= utc_micros t - utc_micros (shift_start_ph t)
                    < 8 * 3600 * US_PER_SECOND).
    { unfold utc_micros. rewrite Hz.
      destruct (shift_start_ph_cases t) as [[Hh ->]|[[Hh ->]|[Hh ->]]];
        unfold wall_micros; cbn [dt_tzinfo dt_hour dt_minute dt_second
                                 dt_microsecond];
        change (dt_date (mk_datetime (dt_year t) (dt_month t) (dt_day t)
                           _ _ _ _ _)) with (dt_date t);
        generalize (toordinal (dt_date t)); intros o;
        unfold US_PER_SECOND; lia. }
    split; [lia|exact Hgoal].
Qed.

Lemma shift_start_ph_idempotent_floor_witness :
  let t := mk_datetime 2024 3 10 15 59 59 999999 PH_TZ in
  valid_datetime t
  /\ datetime_le (shift_start_ph t) t = true
  /\ 0 <= datetime_sub t (shift_start_ph t) < 8 * 3600 * US_PER_SECOND.
Proof.
  cbv zeta. split; [reflexivity|].
  apply (shift_start_ph_idempotent_floor
           (mk_datetime 2024 3 10 15 59 59 999999 PH_TZ));
    reflexivity.
Defined.

(** C10 as stated fails for a timestamp of another zone: 08:30 at UTC+09:00
    is before 08:00 of the same date at UTC+08:00. *)
Lemma shift_start_ph_other_zone :
  let t := mk_datetime 2024 3 10 8 30 0 0 (mk_tz "Asia/Tokyo" 540) in
  valid_datetime t
  /\ ~ (datetime_le (shift_start_ph t) t = true
        /\ datetime_sub t (shift_start_ph t) < 8 * 3600 * US_PER_SECOND).
Proof.
  cbv zeta. split; [reflexivity|].
  intros [Hle _]. vm_compute in Hle. discriminate.
Qed.

(** ** Zone conversion keeps the instant *)

Lemma datetime_add_wall dt delta dt' :
  datetime_add dt delta = Some dt' ->
  wall_micros dt' = wall_micros dt + delta /\ dt_tzinfo dt' = dt_tzinfo dt.
Proof.
  unfold datetime_add. cbv zeta.
  set (w := wall_micros dt + delta).
  destruct ((0 <? w / US_PER_DAY) && (w / US_PER_DAY <=? MAXORDINAL)) eqn:Hr;
    [|discriminate].
  apply andb_true_iff in Hr. rewrite Z.ltb_lt, Z.leb_le in Hr.
  destruct (fromordinal_toordinal (w / US_PER_DAY) ltac:(lia))
    as (d & Hf & _ & Ho).
  rewrite Hf. simpl. intros [= <-]. split; [|reflexivity].
  unfold wall_micros at 1. unfold dt_date.
  cbn [dt_year dt_month dt_day dt_hour dt_minute dt_second dt_microsecond].
  replace (mk_date (year d) (month d) (day d)) with d by (destruct d; reflexivity).
  rewrite Ho. clearbody w. unfold US_PER_DAY, US_PER_SECOND.
  Z.div_mod_to_equations. lia.
Qed.

Lemma wall_micros_replace_tzinfo dt tz :
  wall_micros (replace_tzinfo dt tz) = wall_micros dt.
Proof. reflexivity. Qed.

Lemma astimezone_instant dt tz dt' :
  astimezone dt tz = Some dt' ->
  utc_micros dt' = utc_micros dt /\ dt_tzinfo dt' = tz.
Proof.
  unfold astimezone. destruct (decide (tz = dt_tzinfo dt)) as [->|Hne].
  - intros [= <-]. split; reflexivity.
  - destruct (datetime_add dt (- offset_micros (dt_tzinfo dt))) as [utc|] eqn:E1;
      [|discriminate].
    simpl. intros E2.
    apply datetime_add_wall in E1. destruct E1 as [Hw1 _].
    apply datetime_add_wall in E2. destruct E2 as [Hw2 Hz2].
    rewrite wall_micros_replace_tzinfo in Hw2. simpl in Hz2.
    split; [|exact Hz2].
    unfold utc_micros. rewrite Hz2. unfold offset_micros in *. lia.
Qed.

Lemma datetime_add_is_Some dt delta :
  0 < (wall_micros dt + delta) / US_PER_DAY <= MAXORDINAL ->
  is_Some (datetime_add dt delta).
Proof.
  intros Hr. unfold datetime_add. cbv zeta.
  replace ((0 <? (wall_micros dt + delta) / US_PER_DAY)
           && ((wall_micros dt + delta) / US_PER_DAY <=? MAXORDINAL))
    with true
    by (symmetry; apply andb_true_iff; rewrite Z.ltb_lt, Z.leb_le; lia).
  assert (Hr1 : 1 <= (wall_micros dt + delta) / US_PER_DAY <= MAXORDINAL)
    by lia.
  destruct (fromordinal_toordinal _ Hr1) as (d & Hf & _).
  rewrite Hf. simpl. eexists. reflexivity.
Qed.

(** A reading of the years 2 to 9998 stays in range in every zone. *)
Lemma wall_micros_range dt :
  valid_datetime dt -> 2 <= dt_year dt <= 9998 ->
  366 * US_PER_DAY <= wall_micros dt < 3651695 * US_PER_DAY.
Proof.
  intros Hv Hy. apply valid_datetime_fields in Hv.
  destruct Hv as (Hd & Ht & _).
  unfold valid_date in Hd. rewrite check_date_fields_true in Hd.
  destruct Hd as (_ & Hm & Hday).
  pose proof (ymd2ord_range _ _ _ Hm Hday) as Hr. simpl in Hr.
  pose proof (days_before_year_mono 2 (dt_year dt) ltac:(lia)) as H1.
  pose proof (days_before_year_mono (dt_year dt + 1) 9999 ltac:(lia)) as H2.
  change (days_before_year 2) with 365 in H1.
  change (days_before_year 9999) with 3651694 in H2.
  unfold wall_micros, toordinal. simpl.
  unfold US_PER_DAY, US_PER_SECOND. lia.
Qed.

Lemma astimezone_is_Some dt tz :
  valid_datetime dt -> check_tzinfo tz = true -> 2 <= dt_year dt <= 9998 ->
  is_Some (astimezone dt tz).
Proof.
  intros Hv Htz Hy. pose proof (wall_micros_range dt Hv Hy) as Hw.
  apply valid_datetime_fields in Hv. destruct Hv as (_ & _ & Hz).
  unfold check_tzinfo in Htz. apply andb_true_iff in Htz.
  rewrite !Z.ltb_lt in Htz.
  unfold astimezone. destruct (decide (tz = dt_tzinfo dt)); [eexists; reflexivity|].
  destruct (datetime_add_is_Some dt (- offset_micros (dt_tzinfo dt)))
    as [utc Hutc].
  { unfold offset_micros, MAXORDINAL, US_PER_DAY, US_PER_SECOND in *.
    Z.div_mod_to_equations. lia. }
  rewrite Hutc. simpl. apply datetime_add_is_Some.
  apply datetime_add_wall in Hutc. destruct Hutc as [Hwu _].
  rewrite wall_micros_replace_tzinfo, Hwu.
  unfold offset_micros, MAXORDINAL, US_PER_DAY, US_PER_SECOND in *.
  Z.div_mod_to_equations. lia.
Qed.

(** ** The sales aggregation *)

Global Instance total_desc_trans : Transitive total_desc.
Proof. intros a b c. unfold total_desc. lia. Qed.

Global Instance total_desc_total : Total total_desc.
Proof. intros a b. unfold total_desc. lia. Qed.

Lemma coalesce_sql_sum (xs : list (option Z)) :
  coalesce (sql_sum xs) 0 = foldr (λ x acc, default 0 x + acc) 0 xs.
Proof.
  unfold coalesce. induction xs as [|[v|] xs IH]; simpl in *.
  - reflexivity.
  - destruct (sql_sum xs); simpl in *; lia.
  - exact IH.
Qed.

Lemma sum_amounts_fmap (rows : list sale) :
  foldr (λ x acc, default 0 x + acc) 0 (sale_amount <$> rows)
  = sum_amounts rows.
Proof.
  unfold sum_amounts. induction rows as [|r rows IH]; [reflexivity|].
  rewrite fmap_cons. cbn [foldr]. rewrite IH. reflexivity.
Qed.

Lemma sum_amounts_nonneg (rows : list sale) :
  Forall (λ r, ∀ a, sale_amount r = Some a → 0 ≤ a) rows →
  0 ≤ sum_amounts rows.
Proof.
  unfold sum_amounts. induction 1 as [|r rows Hr _ IH]; simpl; [lia|].
  destruct (sale_amount r) as [a|]; simpl; [specialize (Hr a eq_refl)|]; lia.
Qed.

Lemma float_cast_exact (z : Z) : Z.abs z ≤ 2 ^ 53 → float_cast z = z.
Proof.
  intros Hz. unfold float_cast. cbv zeta.
  destruct (Z.leb_spec (Z.log2 (Z.abs z) - 52) 0) as [|He]; [reflexivity|].
  assert (Ha : Z.abs z = 2 ^ 53).
  { destruct (Z.eq_dec (Z.abs z) (2 ^ 53)) as [|Hne]; [assumption|].
    assert (Hlt : Z.abs z < 2 ^ 53) by lia.
    destruct (Z.eq_dec (Z.abs z) 0) as [E0|Hn0].
    - rewrite E0 in He. simpl in He. lia.
    - apply Z.log2_lt_pow2 in Hlt; lia. }
  clear Hz He. destruct z as [|p|p]; vm_compute in Ha; try discriminate;
    injection Ha as ->; vm_compute; reflexivity.
Qed.

Lemma float_cast_nonneg (z : Z) : 0 ≤ z → 0 ≤ float_cast z.
Proof.
  intros Hz. unfold float_cast. cbv zeta.
  destruct (Z.leb_spec (Z.log2 (Z.abs z) - 52) 0) as [|He]; [assumption|].
  set (e := Z.log2 (Z.abs z) - 52) in *.
  assert (Hp : 0 < 2 ^ e) by (apply Z.pow_pos_nonneg; lia).
  assert (Hq : 0 ≤ Z.abs z / 2 ^ e) by (apply Z.div_pos; lia).
  destruct (_ || _); nia.
Qed.

Lemma float_cast_nearest (z : Z) : nearest_double z (float_cast z).
Proof.
  unfold nearest_double, float_cast. cbv zeta.
  destruct (Z.leb_spec (Z.log2 (Z.abs z) - 52) 0) as [He|He].
  - rewrite Z.max_l by lia. change (2 ^ 0) with 1.
    replace (z - z) with 0 by lia. simpl.
    split; [apply Z.divide_1_l|]. split; [lia|]. intros; lia.
  - rewrite Z.max_r by lia.
    set (e := Z.log2 (Z.abs z) - 52) in *.
    assert (Hhalf : 2 ^ e = 2 * 2 ^ (e - 1)).
    { replace e with (Z.succ (e - 1)) at 1 by lia.
      rewrite Z.pow_succ_r by lia. reflexivity. }
    assert (Hh : 0 < 2 ^ (e - 1)) by (apply Z.pow_pos_nonneg; lia).
    pose proof (Z.div_mod (Z.abs z) (2 ^ e) ltac:(lia)) as Hdm.
    pose proof (Z.mod_pos_bound (Z.abs z) (2 ^ e) ltac:(lia)) as Hr.
    set (q := Z.abs z / 2 ^ e) in *. set (r := Z.abs z mod 2 ^ e) in *.
    set (E := 2 ^ e) in *. set (h := 2 ^ (e - 1)) in *.
    assert (Hz : z ≠ 0).
    { intros ->. subst e. simpl in He. lia. }
    assert (Hsg : (Z.sgn z = 1 ∧ z = Z.abs z) ∨ (Z.sgn z = -1 ∧ z = - Z.abs z))
      by lia.
    set (q' := if (h <? r) || ((r =? h) && Z.odd q) then q + 1 else q).
    assert (Hq' : (q' = q ∧ r ≤ h ∧ (r = h → Z.odd q = false))
                  ∨ (q' = q + 1 ∧ h ≤ r ∧ (r = h → Z.odd q = true))).
    { subst q'. destruct (Z.ltb_spec h r); simpl.
      - right. split; [reflexivity|]. split; [lia|]. intros; lia.
      - destruct (Z.eqb_spec r h); simpl.
        + destruct (Z.odd q) eqn:Ho.
          * right. split; [reflexivity|]. split; [lia|]. auto.
          * left. split; [reflexivity|]. split; [lia|]. auto.
        + left. split; [reflexivity|]. split; [lia|]. intros; lia. }
    clearbody q' q r E h.
    assert (Hdiff : Z.abs (Z.sgn z * (q' * E) - z) = Z.abs (q' * E - Z.abs z)).
    { destruct Hsg as [[-> Hs]|[-> Hs]]; lia. }
    split; [exists (Z.sgn z * q'); lia|].
    rewrite Hdiff. split.
    + destruct Hq' as [(-> & ? & _)|(-> & ? & _)]; lia.
    + intros Htie.
      replace (Z.sgn z * (q' * E)) with ((Z.sgn z * q') * E) by lia.
      rewrite Z.div_mul by lia.
      assert (Hev : Z.even q' = true).
      { destruct Hq' as [(-> & ? & Ho)|(-> & ? & Ho)].
        - assert (r = h) by lia. rewrite <- Z.negb_odd, Ho by assumption.
          reflexivity.
        - assert (r = h) by lia.
          replace (q + 1) with (Z.succ q) by lia.
          rewrite Z.even_succ. auto. }
      destruct Hsg as [[-> _]|[-> _]].
      * rewrite Z.mul_1_l. exact Hev.
      * replace (-1 * q') with (- q') by lia. rewrite Z.even_opp. exact Hev.
Qed.

(** The rows of [table] that a group of the result is made of. *)
Lemma sales_group_rows team ts_from (table : list sale) p :
  filter (λ r, sale_page r = p) (filter (sales_where team ts_from) table)
  = filter (λ r, sale_team r = team
                 ∧ utc_micros ts_from ≤ utc_micros (sale_ts r)
                 ∧ sale_page r = p) table.
Proof.
  rewrite list_filter_filter. apply list_filter_iff. intros r.
  unfold sales_where, datetime_le.
  rewrite Is_true_true, Z.leb_le. tauto.
Qed.

Lemma sales_by_page_elem team ts_from (table : list sale) x :
  x ∈ sales_by_page team ts_from table ↔
  let rows := filter (λ r, sale_team r = team
                           ∧ utc_micros ts_from ≤ utc_micros (sale_ts r)
                           ∧ sale_page r = page x) table in
  rows ≠ [] ∧ total x = float_cast (sum_amounts rows).
Proof.
  unfold sales_by_page. cbv zeta. rewrite merge_sort_Permutation.
  rewrite list_elem_of_fmap. setoid_rewrite elem_of_remove_dups.
  setoid_rewrite list_elem_of_fmap.
  split.
  - intros (p & -> & r & -> & Hr). cbn [page total].
    rewrite coalesce_sql_sum, sum_amounts_fmap, sales_group_rows.
    split; [|reflexivity].
    intros Hnil. apply list_elem_of_filter in Hr. destruct Hr as [Hw Hin].
    eapply (filter_nil_not_elem_of _ _ r); [exact Hnil| |exact Hin].
    unfold sales_where, datetime_le in Hw.
    rewrite Is_true_true, Z.leb_le in Hw. tauto.
  - intros [Hne Ht]. exists (page x). split.
    + rewrite coalesce_sql_sum, sum_amounts_fmap, sales_group_rows.
      destruct x as [p t]. cbn [page total] in *. congruence.
    + destruct (filter _ table) as [|r rows] eqn:E; [congruence|].
      assert (Hr : r ∈ r :: rows) by constructor.
      rewrite <- E in Hr. apply list_elem_of_filter in Hr.
      destruct Hr as [(Hteam & Hts & Hp) Hin].
      exists r. split; [auto|]. apply list_elem_of_filter. split; [|exact Hin].
      unfold sales_where, datetime_le. rewrite Is_true_true, Z.leb_le. tauto.
Qed.

Lemma sales_by_page_NoDup team ts_from (table : list sale) :
  NoDup (page <$> sales_by_page team ts_from table).
Proof.
  unfold sales_by_page. cbv zeta. rewrite merge_sort_Permutation.
  set (pages := remove_dups _). set (group := λ p : string, _).
  assert (Hpages : page <$> (group <$> pages) = pages).
  { clearbody pages. induction pages as [|p pages IH]; [reflexivity|].
    rewrite !fmap_cons, IH. reflexivity. }
  rewrite Hpages. apply NoDup_remove_dups.
Qed.

Lemma sales_by_page_instant team ts_from ts_from' (table : list sale) :
  utc_micros ts_from' = utc_micros ts_from ->
  sales_by_page team ts_from' table = sales_by_page team ts_from table.
Proof.
  intros Hi. unfold sales_by_page. cbv zeta.
  assert (Hf : filter (sales_where team ts_from') table
               = filter (sales_where team ts_from) table).
  { apply list_filter_iff. intros r. unfold sales_where, datetime_le.
    rewrite Hi. reflexivity. }
  rewrite Hf. reflexivity.
Qed.

Lemma StronglySorted_lookup_lt {A} (R : relation A) (l : list A) i j a b :
  StronglySorted R l → (i < j)%nat → l !! i = Some a → l !! j = Some b →
  R a b.
Proof.
  intros Hs. revert i j. induction Hs as [|x l _ IH Hx]; intros i j Hij Ha Hb.
  - rewrite lookup_nil in Ha. discriminate.
  - destruct j as [|j]; [lia|]. cbn in Hb. destruct i as [|i]; cbn in Ha.
    + injection Ha as <-. rewrite Forall_forall in Hx. apply Hx.
      eapply list_elem_of_lookup_2, Hb.
    + apply (IH i j); [lia|assumption|assumption].
Qed.

Lemma sales_by_page_descending team ts_from (table : list sale) i j a b :
  (i < j)%nat →
  sales_by_page team ts_from table !! i = Some a →
  sales_by_page team ts_from table !! j = Some b →
  total b ≤ total a.
Proof.
  apply (StronglySorted_lookup_lt total_desc).
  unfold sales_by_page. cbv zeta. apply StronglySorted_merge_sort; apply _.
Qed.

(** C4, as the code has it.  For every team, boundary and table of
    transactions, the aggregation has one pair per category that has a
    transaction of the team at or after the boundary (the boundary included,
    nothing bounding from above); the total of a pair is the sum of the
    amounts of exactly those transactions cast to double precision, that is
    the double nearest to the sum, which is the sum itself when its
    magnitude is at most 2 ^ 53; and a pair that comes later in the result
    never has the greater total.  The boundary the
    handler passes, the shift start moved to UTC, selects the same rows as
    the shift start.  Transactions A:10, A:5, B:7 give A:15, B:7. *)
Theorem sales_by_page_spec (team : string) (ts_from : datetime)
    (table : list sale) :
  let result := sales_by_page team ts_from table in
  let included (p : string) :=
    filter (λ r, sale_team r = team
                 ∧ utc_micros ts_from ≤ utc_micros (sale_ts r)
                 ∧ sale_page r = p) table in
  (∀ p t, mk_sales_total p t ∈ result ↔
          included p ≠ [] ∧ t = float_cast (sum_amounts (included p)))
  ∧ (∀ p t, mk_sales_total p t ∈ result →
            nearest_double (sum_amounts (included p)) t
            ∧ (Z.abs (sum_amounts (included p)) ≤ 2 ^ 53 →
               t = sum_amounts (included p)))
  ∧ NoDup (page <$> result)
  ∧ (∀ i j a b, (i < j)%nat → result !! i = Some a → result !! j = Some b →
                total b ≤ total a)
  ∧ (∀ start, astimezone start UTC = Some ts_from →
              result = sales_by_page team start table)
  ∧ (let start := mk_datetime 2024 3 10 8 0 0 0 PH_TZ in
     let later := mk_datetime 2024 3 10 9 30 0 0 PH_TZ in
     sales_by_page "X" start
       [mk_sale "X" "A" (Some 10) start; mk_sale "X" "A" (Some 5) later;
        mk_sale "X" "B" (Some 7) later]
     = [mk_sales_total "A" 15; mk_sales_total "B" 7]).
Proof.
  cbv zeta. split; [|split; [|split; [|split; [|split]]]].
  - intros p t. apply (sales_by_page_elem team ts_from table (mk_sales_total p t)).
  - intros p t Hin.
    apply (sales_by_page_elem team ts_from table (mk_sales_total p t)) in Hin.
    cbv zeta in Hin. cbn [page total] in Hin. destruct Hin as [_ ->].
    split; [apply float_cast_nearest|apply float_cast_exact].
  - apply sales_by_page_NoDup.
  - apply sales_by_page_descending.
  - intros start Hconv. apply astimezone_instant in Hconv.
    apply sales_by_page_instant, Hconv.
  - vm_compute. reflexivity.
Qed.

Lemma sales_by_page_spec_witness :
  let start := mk_datetime 2024 3 10 8 0 0 0 PH_TZ in
  let ts_from := mk_datetime 2024 3 10 0 0 0 0 UTC in
  let table :=
    [mk_sale "X" "A" (Some 10) start;
     mk_sale "X" "B" (Some 700) (mk_datetime 2024 3 10 7 59 59 999999 PH_TZ);
     mk_sale "Y" "B" (Some 70) start] in
  astimezone start UTC = Some ts_from
  ∧ sales_by_page "X" ts_from table = sales_by_page "X" start table.
Proof.
  cbv zeta.
  assert (Hconv : astimezone (mk_datetime 2024 3 10 8 0 0 0 PH_TZ) UTC
                  = Some (mk_datetime 2024 3 10 0 0 0 0 UTC))
    by (vm_compute; reflexivity).
  split; [exact Hconv|].
  apply (sales_by_page_spec "X" (mk_datetime 2024 3 10 0 0 0 0 UTC)).
  exact Hconv.
Defined.

(** C4 as stated fails for a sum beyond 2 ^ 53: the amounts
    9007199254740992 and 1 of one category add up to 9007199254740993, and
    the total returned is 9007199254740992, the sum cast to [float]. *)
Lemma sales_by_page_rounded_total :
  let start := mk_datetime 2024 3 10 8 0 0 0 PH_TZ in
  let table :=
    [mk_sale "X" "A" (Some 9007199254740992) start;
     mk_sale "X" "A" (Some 1) start] in
  sum_amounts table = 9007199254740993
  ∧ sales_by_page "X" start table = [mk_sales_total "A" 9007199254740992].
Proof. cbv zeta. split; vm_compute; reflexivity. Qed.

(** C8, as the code has it.  For every team, boundary and table, no category
    occurs in two pairs of the aggregation, every pair has a total (the sum
    of a category whose amounts are all [NULL] is 0), and no total is
    negative when no selected transaction has a negative amount. *)
Theorem sales_by_page_totals (team : string) (ts_from : datetime)
    (table : list sale) :
  let result := sales_by_page team ts_from table in
  NoDup (page <$> result)
  ∧ (Forall (λ r, sales_where team ts_from r →
                  ∀ a, sale_amount r = Some a → 0 ≤ a) table →
     Forall (λ x, 0 ≤ total x) result)
  ∧ (let start := mk_datetime 2024 3 10 8 0 0 0 PH_TZ in
     sales_by_page "X" start [mk_sale "X" "C" None start]
     = [mk_sales_total "C" 0]).
Proof.
  cbv zeta. split; [apply sales_by_page_NoDup|]. split; [|vm_compute; reflexivity].
  intros Hpos. apply Forall_forall. intros x Hx.
  apply sales_by_page_elem in Hx. cbv zeta in Hx. destruct Hx as [_ ->].
  apply float_cast_nonneg, sum_amounts_nonneg. apply Forall_forall. intros r Hr a Ha.
  apply list_elem_of_filter in Hr. destruct Hr as [(Hteam & Hts & _) Hin].
  rewrite Forall_forall in Hpos. apply (Hpos r Hin); [|exact Ha].
  unfold sales_where, datetime_le. rewrite Is_true_true, Z.leb_le. tauto.
Qed.

Lemma sales_by_page_totals_witness :
  let start := mk_datetime 2024 3 10 8 0 0 0 PH_TZ in
  let table :=
    [mk_sale "X" "A" (Some 10) start; mk_sale "X" "B" None start;
     mk_sale "Y" "B" (Some (-3)) start] in
  Forall (λ x, 0 ≤ total x) (sales_by_page "X" start table).
Proof.
  cbv zeta.
  apply (sales_by_page_totals "X" (mk_datetime 2024 3 10 8 0 0 0 PH_TZ)).
  repeat constructor; unfold sales_where; simpl;
    intros Hw a Ha; try (destruct Hw; discriminate);
    inversion Ha; lia.
Defined.

(** C8 as stated fails when a selected transaction has a negative amount:
    the total of its category is negative. *)
Lemma sales_by_page_negative_total :
  let start := mk_datetime 2024 3 10 8 0 0 0 PH_TZ in
  ~ Forall (λ x, 0 ≤ total x)
      (sales_by_page "X" start [mk_sale "X" "A" (Some (-5)) start]).
Proof.
  cbv zeta. intros H.
  assert (E : sales_by_page "X" (mk_datetime 2024 3 10 8 0 0 0 PH_TZ)
                [mk_sale "X" "A" (Some (-5)) (mk_datetime 2024 3 10 8 0 0 0 PH_TZ)]
              = [mk_sales_total "A" (-5)]) by (vm_compute; reflexivity).
  rewrite E in H. inversion H as [|x l Hx _]; subst. simpl in Hx. lia.
Qed.

(** ** The grouping of clock-ins *)

Lemma setdefault_lookup `{Countable K} {V} (k k' : K) (v : V) (d : gmap K V) :
  setdefault k v d !! k' =
  if decide (k' = k) then Some (default v (d !! k)) else d !! k'.
Proof.
  unfold setdefault. destruct (d !! k) as [v'|] eqn:E.
  - destruct (decide (k' = k)) as [Heq|Hne]; [|reflexivity].
    rewrite Heq, E. reflexivity.
  - destruct (decide (k' = k)) as [Heq|Hne].
    + rewrite Heq, lookup_insert_eq. reflexivity.
    + rewrite lookup_insert_ne by congruence. reflexivity.
Qed.

Lemma setdefault_dom `{Countable K} {V} (k : K) (v : V) (d : gmap K V) :
  dom (setdefault k v d) = {[k]} ∪ dom d.
Proof.
  unfold setdefault. destruct (d !! k) as [v'|] eqn:E.
  - assert (k ∈ dom d) by (apply elem_of_dom; eauto). set_solver.
  - apply dom_insert_L.
Qed.

Lemma group_step_Some grouped r grouped' :
  group_step grouped r = Some grouped' →
  ∃ x, entry_of r = Some x
       ∧ dom grouped' = {[shift r]} ∪ dom grouped
       ∧ ∀ s p,
           lookup_bucket grouped' s p =
           if decide (s = shift r ∧ p = page_key r) then
             Some (bucket_add r x
                     (default (mk_bucket [] []) (lookup_bucket grouped s p)))
           else lookup_bucket grouped s p.
Proof.
  unfold group_step. cbv zeta.
  destruct (entry_of r) as [x|] eqn:Hx; [|discriminate].
  simpl. intros [= <-]. exists x. split; [reflexivity|]. split.
  { rewrite dom_insert_L, setdefault_dom. set_solver. }
  intros s p. unfold lookup_bucket.
  assert (Hpages : ∀ q, default ∅ (grouped !! shift r) !! q
                        = grouped !! shift r ≫= (.!! q)).
  { intros q. destruct (grouped !! shift r); simpl; [reflexivity|].
    apply lookup_empty. }
  destruct (decide (s = shift r)) as [->|Hs].
  - rewrite lookup_insert_eq. simpl.
    rewrite (setdefault_lookup (shift r) (shift r)).
    rewrite (decide_True (P := shift r = shift r)) by reflexivity. simpl.
    destruct (decide (p = page_key r)) as [->|Hp].
    + rewrite lookup_insert_eq.
      rewrite (decide_True (P := shift r = shift r ∧ page_key r = page_key r))
        by auto.
      f_equal. rewrite setdefault_lookup.
      rewrite (decide_True (P := page_key r = page_key r)) by reflexivity.
      simpl. rewrite Hpages. reflexivity.
    + rewrite lookup_insert_ne by congruence.
      rewrite setdefault_lookup.
      rewrite (decide_False (P := p = page_key r)) by assumption.
      rewrite (decide_False (P := shift r = shift r ∧ p = page_key r)) by tauto.
      apply Hpages.
  - rewrite lookup_insert_ne by congruence.
    rewrite setdefault_lookup.
    rewrite (decide_False (P := s = shift r)) by assumption.
    rewrite (decide_False (P := s = shift r ∧ p = page_key r)) by tauto.
    reflexivity.
Qed.

Lemma group_step_None grouped r :
  group_step grouped r = None ↔ entry_of r = None.
Proof.
  unfold group_step. cbv zeta. destruct (entry_of r); simpl; split; congruence.
Qed.

Lemma group_rows_snoc rows r :
  group_rows (rows ++ [r]) = grouped ← group_rows rows; group_step grouped r.
Proof. unfold group_rows. rewrite foldl_snoc. reflexivity. Qed.

(** The loop finishes exactly when no row raises. *)
Lemma group_rows_is_Some rows :
  is_Some (group_rows rows) ↔ Forall (λ r, is_Some (entry_of r)) rows.
Proof.
  induction rows as [|r rows IH] using rev_ind.
  - split; [constructor|]. intros _. eexists. reflexivity.
  - rewrite group_rows_snoc, Forall_app, Forall_singleton, <- IH.
    destruct (group_rows rows) as [g|]; simpl.
    + destruct (group_step g r) as [g'|] eqn:E.
      * apply group_step_Some in E. destruct E as (x & Hx & _).
        rewrite Hx. split; eauto.
      * apply group_step_None in E. rewrite E.
        split; [intros [? ?]; discriminate|intros [_ [? ?]]; discriminate].
    + split; [intros [? ?]; discriminate|intros [[? ?] _]; discriminate].
Qed.

Lemma grouped_of_init : grouped_of [] grouped_init.
Proof.
  split.
  - unfold grouped_init.
    rewrite ?dom_insert_L, ?dom_singleton_L, ?dom_empty_L. simpl. set_solver.
  - intros s p. unfold lookup_bucket, grouped_init.
    destruct (decide (s = "prime")) as [->|?];
      [|destruct (decide (s = "midshift")) as [->|?];
        [|destruct (decide (s = "closing")) as [->|?]]];
      simplify_map_eq; reflexivity.
Qed.

Lemma grouped_of_step rows grouped r grouped' :
  grouped_of rows grouped → group_step grouped r = Some grouped' →
  grouped_of (rows ++ [r]) grouped'.
Proof.
  intros [Hdom Hb] Hstep.
  apply group_step_Some in Hstep. destruct Hstep as (x & Hx & Hdom' & Hl).
  split.
  - rewrite Hdom', Hdom, fmap_app, list_to_set_app_L. simpl. set_solver.
  - intros s p. rewrite Hl. specialize (Hb s p).
    unfold bucket_rows in *. rewrite filter_app.
    destruct (decide (s = shift r ∧ p = page_key r)) as [[-> ->]|Hne].
    + rewrite (filter_cons_True _ r) by auto. rewrite filter_nil.
      split; [intros E; apply app_eq_nil in E; destruct E; discriminate|].
      rewrite !filter_app.
      assert (Hold : entries_of
                (filter (λ r0, is_cover r0 = false)
                   (filter (λ r0, shift r0 = shift r ∧ page_key r0 = page_key r) rows))
                (users (default (mk_bucket [] []) (lookup_bucket grouped (shift r) (page_key r))))
              ∧ entries_of
                (filter (λ r0, is_cover r0 = true)
                   (filter (λ r0, shift r0 = shift r ∧ page_key r0 = page_key r) rows))
                (covers (default (mk_bucket [] []) (lookup_bucket grouped (shift r) (page_key r))))).
      { destruct (lookup_bucket grouped (shift r) (page_key r)) as [b|]; simpl.
        - tauto.
        - rewrite Hb. split; constructor. }
      destruct Hold as [Hu Hc].
      unfold bucket_add. destruct (is_cover r) eqn:Hcov; simpl.
      * rewrite (filter_cons_False _ r) by congruence.
        rewrite (filter_cons_True _ r) by assumption.
        rewrite !filter_nil, app_nil_r. split; [exact Hu|].
        apply Forall2_app; [exact Hc|]. constructor; [exact Hx|constructor].
      * rewrite (filter_cons_True _ r) by assumption.
        rewrite (filter_cons_False _ r) by congruence.
        rewrite !filter_nil, app_nil_r. split; [|exact Hc].
        apply Forall2_app; [exact Hu|]. constructor; [exact Hx|constructor].
    + rewrite (filter_cons_False _ r) by (intros [? ?]; apply Hne; auto).
      rewrite filter_nil, app_nil_r. exact Hb.
Qed.

Lemma group_rows_grouped_of rows grouped :
  group_rows rows = Some grouped → grouped_of rows grouped.
Proof.
  revert grouped. induction rows as [|r rows IH] using rev_ind; intros g.
  - intros [= <-]. apply grouped_of_init.
  - rewrite group_rows_snoc.
    destruct (group_rows rows) as [g0|]; simpl; [|discriminate].
    intros Hstep. eapply grouped_of_step; eauto.
Qed.

(** ** The order of the attendance query *)

Section then_by_facts.
Context {A K : Type} `{EqDecision K}.
Variables (key : A → K) (leb : K → K → bool) (rest : A → A → bool).

Lemma then_by_same_key a b :
  key a = key b → then_by key leb rest a b = rest a b.
Proof. intros E. unfold then_by. rewrite decide_True by exact E. reflexivity. Qed.

Hypothesis leb_total : ∀ x y, leb x y = true ∨ leb y x = true.
Hypothesis leb_antisym : ∀ x y, leb x y = true → leb y x = true → x = y.
Hypothesis leb_trans :
  ∀ x y z, leb x y = true → leb y z = true → leb x z = true.
Hypothesis rest_total : ∀ a b, rest a b = true ∨ rest b a = true.
Hypothesis rest_trans :
  ∀ a b c, rest a b = true → rest b c = true → rest a c = true.

Lemma then_by_total a b :
  then_by key leb rest a b = true ∨ then_by key leb rest b a = true.
Proof.
  unfold then_by.
  destruct (decide (key a = key b)) as [E|E].
  - rewrite decide_True by (symmetry; exact E). apply rest_total.
  - rewrite decide_False by (intros E'; apply E; symmetry; exact E').
    apply leb_total.
Qed.

Lemma then_by_trans a b c :
  then_by key leb rest a b = true → then_by key leb rest b c = true →
  then_by key leb rest a c = true.
Proof.
  unfold then_by.
  destruct (decide (key a = key b)) as [Eab|Nab];
    destruct (decide (key b = key c)) as [Ebc|Nbc];
    destruct (decide (key a = key c)) as [Eac|Nac];
    intros H1 H2;
    first
      [ exfalso; congruence
      | eapply rest_trans; eassumption
      | eapply leb_trans; eassumption
      | rewrite Eab; exact H2
      | rewrite <- Ebc; exact H1
      | exfalso; apply Nab; apply leb_antisym; [exact H1|];
        rewrite Eac; exact H2 ].
Qed.
End then_by_facts.

Lemma string_leb_trans (x y z : string) :
  String.leb x y = true → String.leb y z = true → String.leb x z = true.
Proof.
  rewrite <- !Is_true_true. intros H1 H2.
  exact (transitivity (R := String.le) H1 H2).
Qed.

Lemma implb_total (x y : bool) : implb x y = true ∨ implb y x = true.
Proof. destruct x, y; simpl; auto. Qed.

Lemma implb_antisym (x y : bool) : implb x y = true → implb y x = true → x = y.
Proof. destruct x, y; simpl; congruence. Qed.

Lemma implb_trans (x y z : bool) :
  implb x y = true → implb y z = true → implb x z = true.
Proof. destruct x, y, z; simpl; congruence. Qed.

Global Instance clockin_le_total : Total clockin_le.
Proof.
  intros a b. unfold clockin_le, clockin_leb. rewrite !Is_true_true.
  repeat (apply then_by_total;
          [first [exact String.leb_total | exact implb_total]|intros ? ?]).
  rewrite !Z.leb_le. lia.
Qed.

Global Instance clockin_le_trans : Transitive clockin_le.
Proof.
  intros a b c. unfold clockin_le, clockin_leb. rewrite !Is_true_true.
  revert a b c.
  repeat (apply then_by_trans;
          [first [exact String.leb_antisym | exact implb_antisym]
          |first [exact string_leb_trans | exact implb_trans]|]).
  intros a b c. rewrite !Z.leb_le. lia.
Qed.

Lemma clockin_le_same_bucket a b :
  shift a = shift b → page_key a = page_key b → is_cover a = is_cover b →
  clockin_le a b → utc_micros (ph_ts a) ≤ utc_micros (ph_ts b).
Proof.
  intros Hs Hp Hc. unfold clockin_le, clockin_leb.
  rewrite !then_by_same_key by assumption.
  rewrite Is_true_true, Z.leb_le. auto.
Qed.

Lemma StronglySorted_filter_weaken {A} (R R' : relation A) (P : A → Prop)
    `{∀ x, Decision (P x)} (l : list A) :
  (∀ a b, P a → P b → R a b → R' a b) →
  StronglySorted R l → StronglySorted R' (filter P l).
Proof.
  intros HR. induction 1 as [|x l Hl IH Hx]; [constructor|].
  rewrite filter_cons. destruct (decide (P x)) as [HP|HP]; [|exact IH].
  constructor; [exact IH|].
  apply Forall_forall. intros y Hy. apply list_elem_of_filter in Hy.
  destruct Hy as [HPy Hin]. rewrite Forall_forall in Hx. auto.
Qed.

Lemma bucket_rows_ascending rows s p c :
  StronglySorted clockin_le rows →
  ascending (filter (λ r, is_cover r = c) (bucket_rows s p rows)).
Proof.
  intros Hs. unfold ascending, bucket_rows. rewrite list_filter_filter.
  eapply StronglySorted_filter_weaken; [|exact Hs].
  intros a b [Hca (Hsa & Hpa)] [Hcb (Hsb & Hpb)].
  apply clockin_le_same_bucket; congruence.
Qed.

Lemma filter_cover_length (rows : list clockin) :
  (length (filter (λ r, is_cover r = false) rows)
   + length (filter (λ r, is_cover r = true) rows) = length rows)%nat.
Proof.
  induction rows as [|r rows IH]; [reflexivity|].
  rewrite !filter_cons. destruct (is_cover r) eqn:E.
  - rewrite decide_False by discriminate. rewrite decide_True by reflexivity.
    simpl. lia.
  - rewrite decide_True by reflexivity. rewrite decide_False by discriminate.
    simpl. lia.
Qed.

Lemma entry_of_is_Some r :
  valid_datetime (ph_ts r) -> 2 <= dt_year (ph_ts r) <= 9998 ->
  is_Some (entry_of r).
Proof.
  intros Hv Hy. unfold entry_of.
  destruct (astimezone_is_Some (ph_ts r) PH_TZ Hv eq_refl Hy) as [ts Hts].
  rewrite Hts. simpl. eexists. reflexivity.
Qed.

Lemma group_rows_finishes rows :
  Forall (λ r, valid_datetime (ph_ts r) ∧ 2 ≤ dt_year (ph_ts r) ≤ 9998) rows →
  is_Some (group_rows rows).
Proof.
  intros Hrows. apply group_rows_is_Some.
  eapply Forall_impl; [exact Hrows|].
  intros r [Hv Hy]. apply entry_of_is_Some; assumption.
Qed.

Lemma lookup_bucket_empty grouped s :
  s ∈ dom grouped → (∀ p, lookup_bucket grouped s p = None) →
  grouped !! s = Some ∅.
Proof.
  intros Hs Hnone. apply elem_of_dom in Hs. destruct Hs as [pages Hpages].
  rewrite Hpages. f_equal. apply map_empty. intros p.
  specialize (Hnone p). unfold lookup_bucket in Hnone.
  rewrite Hpages in Hnone. exact Hnone.
Qed.

(** C3, as the code has it.  The loop finishes exactly when no row raises,
    as it does when the timestamps are of the years 2 to 9998; the keys of
    the outer mapping it returns are [prime], [midshift] and [closing]
    together with the shift labels of the rows.  The three keys are there
    whatever the rows, with an empty inner mapping for a shift without rows,
    and they are the only keys when every row carries one of the three
    labels. *)
Theorem group_rows_keys (rows : list clockin) :
  (is_Some (group_rows rows) ↔ Forall (λ r, is_Some (entry_of r)) rows)
  ∧ (Forall (λ r, valid_datetime (ph_ts r) ∧ 2 ≤ dt_year (ph_ts r) ≤ 9998)
       rows → is_Some (group_rows rows))
  ∧ ∀ grouped, group_rows rows = Some grouped →
      dom grouped
      = {["prime"; "midshift"; "closing"]} ∪ list_to_set (shift <$> rows)
      ∧ (∀ s, s ∈ ["prime"; "midshift"; "closing"] →
              Forall (λ r, shift r ≠ s) rows → grouped !! s = Some ∅)
      ∧ (Forall (λ r, shift r ∈ ["prime"; "midshift"; "closing"]) rows →
         dom grouped = {["prime"; "midshift"; "closing"]}).
Proof.
  split; [apply group_rows_is_Some|]. split; [apply group_rows_finishes|].
  intros grouped Hg. apply group_rows_grouped_of in Hg.
  destruct Hg as [Hdom Hb]. split; [exact Hdom|]. split.
  - intros s Hs Hrows. apply lookup_bucket_empty.
    + rewrite Hdom. set_solver.
    + intros p. specialize (Hb s p).
      destruct (lookup_bucket grouped s p) as [b|]; [|reflexivity].
      destruct Hb as [Hne _]. exfalso. apply Hne. unfold bucket_rows.
      clear -Hrows. induction Hrows as [|r rows Hr _ IH]; [reflexivity|].
      rewrite filter_cons_False by tauto. exact IH.
  - intros Hknown. rewrite Hdom.
    assert (Hsub : list_to_set (shift <$> rows)
                   ⊆@{gset string} {["prime"; "midshift"; "closing"]}).
    { intros s Hs. apply elem_of_list_to_set, list_elem_of_fmap in Hs.
      destruct Hs as (r & -> & Hr). rewrite Forall_forall in Hknown.
      specialize (Hknown r Hr). set_solver. }
    set_solver.
Qed.

Lemma group_rows_keys_witness :
  let ts := mk_datetime 2024 3 10 8 5 0 0 PH_TZ in
  let rows :=
    [mk_clockin (mk_date 2024 3 10) "prime" "L1" "Ana" false ts;
     mk_clockin (mk_date 2024 3 10) "prime" "L1" "Bo" true ts] in
  ∃ grouped,
    group_rows rows = Some grouped
    ∧ dom grouped = {["prime"; "midshift"; "closing"]}
    ∧ grouped !! "midshift" = Some ∅
    ∧ grouped !! "closing" = Some ∅.
Proof.
  cbv zeta.
  destruct (group_rows_keys
              [mk_clockin (mk_date 2024 3 10) "prime" "L1" "Ana" false
                 (mk_datetime 2024 3 10 8 5 0 0 PH_TZ);
               mk_clockin (mk_date 2024 3 10) "prime" "L1" "Bo" true
                 (mk_datetime 2024 3 10 8 5 0 0 PH_TZ)])
    as (_ & Hfinishes & Hkeys).
  destruct Hfinishes as [grouped Hg].
  { repeat constructor; simpl; lia. }
  exists grouped. split; [exact Hg|].
  destruct (Hkeys grouped Hg) as (_ & Hempty & Hknown).
  split; [|split].
  - apply Hknown. repeat constructor.
  - apply Hempty; [set_solver|]. repeat constructor; discriminate.
  - apply Hempty; [set_solver|]. repeat constructor; discriminate.
Defined.

(** C3 as stated fails for a row whose label is none of the three: the label
    becomes a fourth key. *)
Lemma group_rows_unknown_shift :
  let rows :=
    [mk_clockin (mk_date 2024 3 10) "night" "L1" "Ana" false
       (mk_datetime 2024 3 10 23 5 0 0 PH_TZ)] in
  ∃ grouped,
    group_rows rows = Some grouped
    ∧ dom grouped ≠ {["prime"; "midshift"; "closing"]}.
Proof.
  cbv zeta.
  destruct (group_rows
              [mk_clockin (mk_date 2024 3 10) "night" "L1" "Ana" false
                 (mk_datetime 2024 3 10 23 5 0 0 PH_TZ)]) as [grouped|] eqn:Hg;
    [|vm_compute in Hg; discriminate].
  exists grouped. split; [reflexivity|].
  apply group_rows_grouped_of in Hg. destruct Hg as [Hdom _].
  rewrite Hdom. simpl. intros E.
  assert (Hin : "night" ∈@{gset string} {["prime"; "midshift"; "closing"]})
    by (rewrite <- E; set_solver).
  set_solver.
Qed.

(** C5.  For every list of rows the loop goes through (it does so exactly
    when no row raises, hence whenever the timestamps are of the years 2 to
    9998), each bucket holds the rows of its shift and key: the regular
    sequence has the entries of the rows whose covering flag is false, the
    covering sequence those of the rows whose flag is true, both in the order
    of the rows, so that every row of the bucket is in exactly one of the two
    sequences, once.  Rows sorted as the query sorts them give sequences in
    ascending order of clock-in instant, and the query sorts them so. *)
Theorem group_rows_buckets (rows : list clockin) :
  (is_Some (group_rows rows) ↔ Forall (λ r, is_Some (entry_of r)) rows)
  ∧ (Forall (λ r, valid_datetime (ph_ts r) ∧ 2 ≤ dt_year (ph_ts r) ≤ 9998)
       rows → is_Some (group_rows rows))
  ∧ (∀ grouped, group_rows rows = Some grouped → ∀ s p,
       let here := bucket_rows s p rows in
       match lookup_bucket grouped s p with
       | Some b =>
           here ≠ []
           ∧ entries_of (filter (λ r, is_cover r = false) here) (users b)
           ∧ entries_of (filter (λ r, is_cover r = true) here) (covers b)
           ∧ (length (users b) + length (covers b) = length here)%nat
       | None => here = []
       end)
  ∧ (StronglySorted clockin_le rows → ∀ s p c,
       ascending (filter (λ r, is_cover r = c) (bucket_rows s p rows)))
  ∧ (∀ att_day table, StronglySorted clockin_le (clockins_of_day att_day table)).
Proof.
  split; [apply group_rows_is_Some|]. split; [apply group_rows_finishes|].
  split; [|split].
  - intros grouped Hg s p. cbv zeta. apply group_rows_grouped_of in Hg.
    destruct Hg as [_ Hb]. specialize (Hb s p).
    destruct (lookup_bucket grouped s p) as [b|]; [|exact Hb].
    destruct Hb as (Hne & Hu & Hc). repeat split; try assumption.
    unfold entries_of in *.
    rewrite <- (Forall2_length _ _ _ Hu), <- (Forall2_length _ _ _ Hc).
    apply filter_cover_length.
  - intros Hs s p c. apply bucket_rows_ascending, Hs.
  - intros att_day table. unfold clockins_of_day.
    apply StronglySorted_merge_sort; apply _.
Qed.

Lemma group_rows_buckets_witness :
  let day := mk_date 2024 3 10 in
  let rows :=
    [mk_clockin day "prime" "L1" "Ana" false (mk_datetime 2024 3 10 0 5 0 0 UTC);
     mk_clockin day "prime" "L1" "Cy" false (mk_datetime 2024 3 10 8 7 0 0 PH_TZ);
     mk_clockin day "prime" "L1" "Bo" true (mk_datetime 2024 3 10 8 10 0 0 PH_TZ)] in
  ∃ grouped b,
    group_rows rows = Some grouped
    ∧ lookup_bucket grouped "prime" "L1" = Some b
    ∧ (length (users b) + length (covers b) = 3)%nat
    ∧ ascending (filter (λ r, is_cover r = false) (bucket_rows "prime" "L1" rows)).
Proof.
  cbv zeta.
  set (rows := [mk_clockin _ _ _ "Ana" _ _; mk_clockin _ _ _ "Cy" _ _;
                mk_clockin _ _ _ "Bo" _ _]).
  destruct (group_rows_buckets rows) as (_ & Hfinishes & Hbuckets & Hasc & _).
  destruct Hfinishes as [grouped Hg].
  { repeat constructor; simpl; lia. }
  specialize (Hbuckets grouped Hg "prime" "L1"). cbv zeta in Hbuckets.
  destruct (lookup_bucket grouped "prime" "L1") as [b|] eqn:Hb;
    [|discriminate Hbuckets].
  exists grouped, b. split; [exact Hg|]. split; [exact Hb|].
  destruct Hbuckets as (_ & _ & _ & Hlen).
  split; [rewrite Hlen; vm_compute; reflexivity|].
  apply Hasc. apply (bool_decide_unpack _). vm_compute. reflexivity.
Defined.

(** ** ISO 8601 rendering *)

Lemma append_assoc (a b c : string) : (a +:+ b) +:+ c = a +:+ (b +:+ c).
Proof.
  induction a as [|x a IH]; [reflexivity|].
  change (String x ((a +:+ b) +:+ c) = String x (a +:+ (b +:+ c))).
  rewrite IH. reflexivity.
Qed.

Lemma is_digit_digit d : 0 <= d <= 9 -> is_digit (digit d) = true.
Proof.
  intros Hd.
  assert (H : d = 0 \/ d = 1 \/ d = 2 \/ d = 3 \/ d = 4 \/ d = 5 \/ d = 6
              \/ d = 7 \/ d = 8 \/ d = 9) by lia.
  destruct H as [->|[->|[->|[->|[->|[->|[->|[->|[->| ->]]]]]]]]]; reflexivity.
Qed.

Lemma eat_digits_snoc w s :
  eat_digits (S w) s = eat_digits w s ≫= eat_digits 1.
Proof.
  revert s. induction w as [|w IH]; intros s.
  - simpl. destruct s as [|c s]; [reflexivity|]. destruct (is_digit c); reflexivity.
  - change (eat_digits (S (S w)) s) with
      (match s with
       | String c s' => if is_digit c then eat_digits (S w) s' else None
       | EmptyString => None
       end).
    destruct s as [|c s]; [reflexivity|]. simpl (eat_digits (S w) (String c s)).
    destruct (is_digit c); [apply IH|reflexivity].
Qed.

Lemma eat_digits_zfill w n s : eat_digits w (zfill w n +:+ s) = Some s.
Proof.
  revert n s. induction w as [|w IH]; intros n s; [reflexivity|].
  rewrite eat_digits_snoc. cbn [zfill]. rewrite append_assoc, IH. simpl.
  rewrite is_digit_digit; [reflexivity|].
  pose proof (Z.mod_pos_bound n 10 ltac:(lia)). lia.
Qed.

Lemma append_nil_r (a : string) : a +:+ "" = a.
Proof.
  induction a as [|x a IH]; [reflexivity|].
  change (String x (a +:+ "") = String x a). rewrite IH. reflexivity.
Qed.

Lemma eat_digits_zfill_end w n : eat_digits w (zfill w n) = Some ""%string.
Proof. rewrite <- (append_nil_r (zfill w n)). apply eat_digits_zfill. Qed.

Lemma eat_all_nil s : eat_all [] s = Some s.
Proof. reflexivity. Qed.

Lemma eat_all_cons p ps s : eat_all (p :: ps) s = p s ≫= eat_all ps.
Proof.
  unfold eat_all. cbn [foldl]. change (Some s ≫= p) with (p s).
  destruct (p s) as [s'|]; [reflexivity|].
  induction ps as [|q ps IH]; [reflexivity|exact IH].
Qed.

Lemma eat_char_lit c s : eat_char c (String c "" +:+ s) = Some s.
Proof.
  change (String c "" +:+ s) with (String c s). unfold eat_char.
  rewrite decide_True by reflexivity. reflexivity.
Qed.

Lemma bind_Some_string (s : string) (f : string → option string) :
  Some s ≫= f = f s.
Proof. reflexivity. Qed.

Ltac eat :=
  repeat first
    [ rewrite eat_all_cons | rewrite eat_all_nil | rewrite eat_digits_zfill
    | rewrite eat_digits_zfill_end | rewrite eat_char_lit
    | rewrite bind_Some_string ].

Lemma eat_offset_format tz : eat_offset (format_offset tz) = true.
Proof.
  unfold format_offset, eat_offset. cbv zeta.
  destruct (utcoffset_minutes tz <? 0).
  - rewrite eat_all_cons.
    change (eat_sign ("-" +:+ ?s)) with (Some s). eat. reflexivity.
  - rewrite eat_all_cons.
    change (eat_sign ("+" +:+ ?s)) with (Some s). eat. reflexivity.
Qed.

Lemma eat_dot_offset tz : eat_char "."%char (format_offset tz) = None.
Proof.
  unfold format_offset. cbv zeta.
  destruct (utcoffset_minutes tz <? 0); reflexivity.
Qed.

Lemma isoformat_iso8601 dt : iso8601_with_offset (isoformat dt) = true.
Proof.
  unfold iso8601_with_offset, isoformat, date_isoformat.
  rewrite !append_assoc. eat.
  destruct (dt_microsecond dt =? 0).
  - change ("" +:+ ?s)%string with s. rewrite eat_dot_offset.
    apply eat_offset_format.
  - rewrite !append_assoc. eat. apply eat_offset_format.
Qed.

(** ** The handlers *)

Lemma require_internal_key_refuses {A} key (k : unit → handler A) e :
  key ≠ Some (INTERNAL_KEY e) →
  (require_internal_key key ≫= k) e = ([], HTTPException 401 "Unauthorized").
Proof.
  intros Hkey. unfold require_internal_key, configured_key.
  unfold mbind, handler_bind. rewrite decide_True by exact Hkey. reflexivity.
Qed.

Lemma require_internal_key_accepts {A} key (k : unit → handler A) e :
  key = Some (INTERNAL_KEY e) →
  (require_internal_key key ≫= k) e = k () e.
Proof.
  intros Hkey. unfold require_internal_key, configured_key.
  unfold mbind, handler_bind.
  rewrite decide_False by (intros Hne; apply Hne; exact Hkey).
  unfold mret, handler_ret. destruct (k () e) as [calls o]. reflexivity.
Qed.

Lemma datetime_now_tzinfo clock tz now :
  datetime_now clock tz = Some now → dt_tzinfo now = tz.
Proof.
  unfold datetime_now. intros H. apply datetime_add_wall in H.
  destruct H as [_ Hz]. exact Hz.
Qed.

(** What [sales_shift] has done when it returns. *)
Lemma sales_shift_returned team key e calls j :
  sales_shift team key e = (calls, Returned j) →
  ∃ now conn ts_from,
    key = Some (INTERNAL_KEY e)
    ∧ datetime_now (env_clock e) PH_TZ = Some now
    ∧ SALES_DB e = Some conn
    ∧ astimezone (shift_start_ph now) UTC = Some ts_from
    ∧ calls = [call_now_ph; call_shift_start_ph; call_sales_conn;
               call_sales_execute]
    ∧ j = JObj [("team", JStr team);
                ("shift_start_ph", JStr (isoformat (shift_start_ph now)));
                ("updated_ph", JStr (isoformat now));
                ("rows",
                 JArr (json_of_sales_total
                       <$> sales_by_page team ts_from (sales_table conn)))].
Proof.
  unfold sales_shift.
  destruct (decide (key = Some (INTERNAL_KEY e))) as [Hkey|Hkey].
  - rewrite require_internal_key_accepts by exact Hkey.
    unfold mbind, handler_bind, now_ph, logged, sales_conn, logged_partial,
      partial, mret, handler_ret.
    destruct (datetime_now (env_clock e) PH_TZ) as [now|] eqn:Hnow;
      [|discriminate].
    destruct (SALES_DB e) as [conn|] eqn:Hconn; [|discriminate].
    destruct (astimezone (shift_start_ph now) UTC) as [ts_from|] eqn:Hts;
      [|discriminate].
    intros [= <- <-]. exists now, conn, ts_from.
    repeat split; reflexivity || assumption.
  - rewrite require_internal_key_refuses by exact Hkey. discriminate.
Qed.

Lemma respond_200 h e :
  status_code (respond h e).2 = 200 →
  (∃ j, h e = ((respond h e).1, Returned j) ∧ body (respond h e).2 = j)
  ∨ (∃ d, h e = ((respond h e).1, HTTPException 200 d)).
Proof.
  unfold respond. destruct (h e) as [calls [j|s d|]]; simpl.
  - intros _. left. exists j. split; reflexivity.
  - intros ->. right. exists d. reflexivity.
  - discriminate.
Qed.

(** C6, as the code has it.  On [/teams], [/attendance/today] and
    [/sales/shift] with its [team] parameter, a request whose key header is
    missing or differs from the configured key is answered 401
    ["Unauthorized"] before the clock, a resolver or a store is called.
    [/health] checks no key and answers 200; [/sales/shift] without [team] is
    answered 422 by parameter validation, whatever the key. *)
Theorem unauthorized_before_any_call (e : env) (req : request) :
  req_x_internal_key req ≠ Some (INTERNAL_KEY e) →
  (req_route req = Teams ∨ req_route req = AttendanceToday
   ∨ (req_route req = SalesShift ∧ is_Some (req_team req)) →
   app req e
   = ([], mk_response 401 (JObj [("detail", JStr "Unauthorized")])))
  ∧ (req_route req = Health →
     app req e = ([], mk_response 200 (JObj [("ok", JBool true)])))
  ∧ (req_route req = SalesShift → req_team req = None →
     app req e = ([], missing_parameter "team")).
Proof.
  intros Hkey. unfold app. split; [|split].
  - intros [Hr|[Hr|[Hr [team Ht]]]]; rewrite Hr; [| |rewrite Ht];
      unfold respond, teams, attendance_today, sales_shift;
      rewrite require_internal_key_refuses by exact Hkey; reflexivity.
  - intros ->. reflexivity.
  - intros -> ->. reflexivity.
Qed.

Lemma unauthorized_before_any_call_witness :
  let e := mk_env "secret" (mk_datetime 2024 3 10 2 23 45 0 UTC)
             (Some (mk_sales_db ["X"] [])) (Some []) in
  app (mk_request Teams None None) e
  = ([], mk_response 401 (JObj [("detail", JStr "Unauthorized")]))
  ∧ app (mk_request SalesShift (Some "guess") (Some "X")) e
    = ([], mk_response 401 (JObj [("detail", JStr "Unauthorized")])).
Proof.
  cbv zeta. split.
  - apply (unauthorized_before_any_call _ (mk_request Teams None None));
      [discriminate|]. left. reflexivity.
  - apply (unauthorized_before_any_call _
             (mk_request SalesShift (Some "guess") (Some "X")));
      [discriminate|]. right. right. split; [reflexivity|]. eexists. reflexivity.
Defined.

(** C6 as stated fails on [/health]: a request without the key header is
    answered 200. *)
Lemma health_needs_no_key :
  let e := mk_env "secret" (mk_datetime 2024 3 10 2 23 45 0 UTC)
             (Some (mk_sales_db ["X"] [])) (Some []) in
  let req := mk_request Health None None in
  req_x_internal_key req ≠ Some (INTERNAL_KEY e)
  ∧ status_code (app req e).2 ≠ 401.
Proof. cbv zeta. split; [discriminate|]. vm_compute. discriminate. Qed.

(** C7, as the code has it.  A request to [/sales/shift] answered 200 has as
    body an object with the keys [team], [shift_start_ph], [updated_ph] and
    [rows], in which [updated_ph] is the clock reading in the zone of the
    organisation and [shift_start_ph] the start of its shift, both as local
    ISO 8601 timestamps with offset, and each element of [rows] is an object
    with the keys [page] and [total]. *)
Theorem sales_shift_response (e : env) (req : request) :
  req_route req = SalesShift →
  status_code (app req e).2 = 200 →
  ∃ team now rows,
    req_team req = Some team
    ∧ datetime_now (env_clock e) PH_TZ = Some now
    ∧ dt_tzinfo now = PH_TZ
    ∧ body (app req e).2
      = JObj [("team", JStr team);
              ("shift_start_ph", JStr (isoformat (shift_start_ph now)));
              ("updated_ph", JStr (isoformat now));
              ("rows", JArr (json_of_sales_total <$> rows))]
    ∧ json_keys (body (app req e).2)
      = ["team"; "shift_start_ph"; "updated_ph"; "rows"]
    ∧ iso8601_with_offset (isoformat (shift_start_ph now)) = true
    ∧ iso8601_with_offset (isoformat now) = true
    ∧ Forall (λ j, json_keys j = ["page"; "total"])
        (json_of_sales_total <$> rows).
Proof.
  intros Hr. unfold app. rewrite Hr.
  destruct (req_team req) as [team|]; [|simpl; discriminate].
  intros H200. apply respond_200 in H200.
  destruct H200 as [[j [Hrun Hbody]]|[d Hrun]].
  - apply sales_shift_returned in Hrun.
    destruct Hrun as (now & conn & ts_from & _ & Hnow & _ & _ & _ & ->).
    exists team, now, (sales_by_page team ts_from (sales_table conn)).
    split; [reflexivity|]. split; [exact Hnow|].
    split; [eapply datetime_now_tzinfo, Hnow|]. rewrite Hbody.
    split; [reflexivity|]. split; [reflexivity|].
    split; [apply isoformat_iso8601|]. split; [apply isoformat_iso8601|].
    apply Forall_fmap, Forall_forall. intros r _. reflexivity.
  - exfalso. revert Hrun. unfold sales_shift.
    destruct (decide (req_x_internal_key req = Some (INTERNAL_KEY e)))
      as [Hkey|Hkey].
    + rewrite require_internal_key_accepts by exact Hkey.
      unfold mbind, handler_bind, now_ph, logged, sales_conn, logged_partial,
        partial, mret, handler_ret.
      destruct (datetime_now (env_clock e) PH_TZ) as [now|]; [|discriminate].
      destruct (SALES_DB e) as [conn|]; [|discriminate].
      destruct (astimezone (shift_start_ph now) UTC); discriminate.
    + rewrite require_internal_key_refuses by exact Hkey. discriminate.
Qed.

Lemma sales_shift_response_witness :
  let start := mk_datetime 2024 3 10 8 0 0 0 PH_TZ in
  let e := mk_env "secret" (mk_datetime 2024 3 10 2 23 45 123 UTC)
             (Some (mk_sales_db ["X"] [mk_sale "X" "A" (Some 10) start]))
             (Some []) in
  let req := mk_request SalesShift (Some "secret") (Some "X") in
  json_keys (body (app req e).2)
  = ["team"; "shift_start_ph"; "updated_ph"; "rows"].
Proof.
  cbv zeta.
  destruct (sales_shift_response
              (mk_env "secret" (mk_datetime 2024 3 10 2 23 45 123 UTC)
                 (Some (mk_sales_db ["X"]
                          [mk_sale "X" "A" (Some 10)
                             (mk_datetime 2024 3 10 8 0 0 0 PH_TZ)]))
                 (Some []))
              (mk_request SalesShift (Some "secret") (Some "X")))
    as (team & now & rows & _ & _ & _ & _ & Hkeys & _).
  - reflexivity.
  - vm_compute. reflexivity.
  - exact Hkeys.
Defined.

(** C7 as stated fails on the names of the keys: the body has no key
    [shift_start] nor [updated], and its rows have no key [category]. *)
Lemma sales_shift_key_names :
  let start := mk_datetime 2024 3 10 8 0 0 0 PH_TZ in
  let e := mk_env "secret" (mk_datetime 2024 3 10 2 23 45 123 UTC)
             (Some (mk_sales_db ["X"] [mk_sale "X" "A" (Some 10) start]))
             (Some []) in
  let req := mk_request SalesShift (Some "secret") (Some "X") in
  status_code (app req e).2 = 200
  ∧ body (app req e).2
    = JObj [("team", JStr "X");
            ("shift_start_ph", JStr "2024-03-10T08:00:00+08:00");
            ("updated_ph", JStr "2024-03-10T10:23:45.000123+08:00");
            ("rows", JArr [JObj [("page", JStr "A"); ("total", JNum 10)]])]
  ∧ ¬ (json_keys (body (app req e).2)
       = ["team"; "shift_start"; "updated"; "rows"]).
Proof.
  cbv zeta. split; [vm_compute; reflexivity|].
  split; [vm_compute; reflexivity|]. vm_compute. discriminate.
Qed.

(** C9.  A request to [/sales/shift] that carries the configured key and no
    [team] parameter is answered with a client error, 422, and no store (nor
    anything else) is called. *)
Theorem sales_shift_requires_team (e : env) (req : request) :
  req_route req = SalesShift →
  req_x_internal_key req = Some (INTERNAL_KEY e) →
  req_team req = None →
  (app req e).1 = []
  ∧ status_code (app req e).2 = 422
  ∧ 400 ≤ status_code (app req e).2 < 500.
Proof.
  intros Hr _ Ht. unfold app. rewrite Hr, Ht.
  unfold missing_parameter. cbn [fst snd status_code].
  split; [reflexivity|]. split; [reflexivity|]. lia.
Qed.

Lemma sales_shift_requires_team_witness :
  let e := mk_env "secret" (mk_datetime 2024 3 10 2 23 45 0 UTC)
             (Some (mk_sales_db ["X"] [])) (Some []) in
  (app (mk_request SalesShift (Some "secret") None) e).1 = [].
Proof.
  cbv zeta.
  apply (sales_shift_requires_team _
           (mk_request SalesShift (Some "secret") None));
    reflexivity.
Defined.

(** * Further properties *)

(** ** The clock and the resolvers *)

Lemma datetime_add_valid dt delta dt' :
  check_tzinfo (dt_tzinfo dt) = true ->
  datetime_add dt delta = Some dt' -> valid_datetime dt'.
Proof.
  intros Htz. unfold datetime_add. cbv zeta.
  set (w := wall_micros dt + delta).
  destruct ((0 <? w / US_PER_DAY) && (w / US_PER_DAY <=? MAXORDINAL)) eqn:Hr;
    [|discriminate].
  apply andb_true_iff in Hr. rewrite Z.ltb_lt, Z.leb_le in Hr.
  destruct (fromordinal_toordinal (w / US_PER_DAY) ltac:(lia))
    as (d & Hf & Hv & _).
  rewrite Hf. simpl. intros [= <-].
  apply valid_datetime_fields. unfold dt_date. simpl.
  split; [destruct d; exact Hv|]. split.
  - clearbody w. unfold US_PER_DAY, US_PER_SECOND.
    Z.div_mod_to_equations. lia.
  - unfold check_tzinfo in Htz. apply andb_true_iff in Htz.
    rewrite !Z.ltb_lt in Htz. exact Htz.
Qed.

Lemma datetime_now_spec clock now :
  datetime_now clock PH_TZ = Some now ->
  dt_tzinfo now = PH_TZ
  /\ valid_datetime now
  /\ wall_micros now = wall_micros clock + 8 * 3600 * US_PER_SECOND
  /\ utc_micros now = wall_micros clock.
Proof.
  unfold datetime_now. intros H.
  pose proof (datetime_add_valid (replace_tzinfo clock PH_TZ) _ _ eq_refl H)
    as Hv.
  apply datetime_add_wall in H. destruct H as [Hw Hz].
  rewrite wall_micros_replace_tzinfo in Hw. simpl in Hz.
  split; [exact Hz|]. split; [exact Hv|].
  unfold utc_micros. rewrite Hz, Hw. unfold offset_micros. simpl.
  unfold US_PER_SECOND. lia.
Qed.

Lemma datetime_now_is_Some clock :
  valid_datetime clock -> 2 <= dt_year clock <= 9998 ->
  is_Some (datetime_now clock PH_TZ).
Proof.
  intros Hv Hy. pose proof (wall_micros_range clock Hv Hy) as Hw.
  unfold datetime_now. apply datetime_add_is_Some.
  rewrite wall_micros_replace_tzinfo.
  unfold offset_micros, MAXORDINAL, US_PER_DAY, US_PER_SECOND in *. simpl.
  Z.div_mod_to_equations. lia.
Qed.

(** X1.  When the clock reads a year from 1991 to 9998, [now_ph] makes the
    one call to the clock and returns a well-formed timestamp of the zone of
    the organisation that denotes the instant the clock reads, eight hours
    ahead of the UTC reading on the wall. *)
Theorem now_ph_spec (e : env) :
  valid_datetime (env_clock e) -> 1991 <= dt_year (env_clock e) <= 9998 ->
  exists now,
    now_ph e = ([call_now_ph], Returned now)
    /\ dt_tzinfo now = PH_TZ
    /\ valid_datetime now
    /\ utc_micros now = wall_micros (env_clock e)
    /\ wall_micros now = wall_micros (env_clock e) + 8 * 3600 * US_PER_SECOND.
Proof.
  intros Hv Hy. unfold now_ph, logged_partial.
  destruct (datetime_now_is_Some _ Hv ltac:(lia)) as [now Hnow].
  exists now. rewrite Hnow. split; [reflexivity|].
  apply datetime_now_spec in Hnow. destruct Hnow as (Hz & Hv' & Hw & Hu). auto.
Qed.

Lemma now_ph_spec_witness :
  let e := mk_env "secret" (mk_datetime 2024 3 10 20 23 45 7 UTC) None None in
  now_ph e
  = ([call_now_ph], Returned (mk_datetime 2024 3 11 4 23 45 7 PH_TZ))
  /\ exists now,
       now_ph e = ([call_now_ph], Returned now)
       /\ dt_tzinfo now = PH_TZ
       /\ valid_datetime now
       /\ utc_micros now = wall_micros (env_clock e)
       /\ wall_micros now
          = wall_micros (env_clock e) + 8 * 3600 * US_PER_SECOND.
Proof.
  cbv zeta. split; [vm_compute; reflexivity|].
  apply (now_ph_spec
           (mk_env "secret" (mk_datetime 2024 3 10 20 23 45 7 UTC) None None));
    [reflexivity|simpl; lia].
Defined.

(** The wall reading of a well-formed timestamp and of its shift start: the
    day, the seconds into the day and the hour at which the shift starts. *)
Lemma shift_start_ph_wall t :
  valid_datetime t ->
  exists o tod h0,
    0 <= tod < 86400 /\ dt_hour t = tod / 3600
    /\ (h0 = 0 \/ h0 = 8 \/ h0 = 16)
    /\ h0 <= tod / 3600 < h0 + 8
    /\ o = toordinal (dt_date t)
    /\ o * 86400 * US_PER_SECOND <= wall_micros t
       < (o * 86400 + 86400) * US_PER_SECOND
    /\ tod = (wall_micros t - o * 86400 * US_PER_SECOND) / US_PER_SECOND
    /\ wall_micros (shift_start_ph t) = (o * 86400 + h0 * 3600) * US_PER_SECOND.
Proof.
  intros Hv. apply valid_datetime_fields in Hv. destruct Hv as (_ & Ht & _).
  exists (toordinal (dt_date t)),
    (dt_hour t * 3600 + dt_minute t * 60 + dt_second t).
  assert (Hh : dt_hour t
               = (dt_hour t * 3600 + dt_minute t * 60 + dt_second t) / 3600)
    by (Z.div_mod_to_equations; lia).
  assert (Htod : dt_hour t * 3600 + dt_minute t * 60 + dt_second t
                 = (wall_micros t
                    - toordinal (dt_date t) * 86400 * US_PER_SECOND)
                   / US_PER_SECOND).
  { unfold wall_micros, US_PER_SECOND.
    generalize (toordinal (dt_date t)). intros o.
    Z.div_mod_to_equations. lia. }
  assert (Hwall : toordinal (dt_date t) * 86400 * US_PER_SECOND
                  <= wall_micros t
                  < (toordinal (dt_date t) * 86400 + 86400) * US_PER_SECOND).
  { unfold wall_micros, US_PER_SECOND.
    generalize (toordinal (dt_date t)). intros o. lia. }
  destruct (shift_start_ph_cases t) as [[Hc ->]|[[Hc ->]|[Hc ->]]];
    [exists 8|exists 16|exists 0];
    (split; [lia|]); (split; [exact Hh|]); (split; [lia|]);
    (split; [rewrite <- Hh; lia|]); (split; [reflexivity|]);
    (split; [exact Hwall|]); (split; [exact Htod|]);
    unfold wall_micros; cbn [dt_hour dt_minute dt_second dt_microsecond];
    change (dt_date (mk_datetime (dt_year t) (dt_month t) (dt_day t)
                       _ _ _ _ _)) with (dt_date t);
    generalize (toordinal (dt_date t)); intros o; unfold US_PER_SECOND; lia.
Qed.

(** X2.  [shift_start_ph] is monotone on the timestamps of the zone of the
    organisation: a later reading never gets an earlier shift start. *)
Theorem shift_start_ph_monotone (t1 t2 : datetime) :
  valid_datetime t1 -> valid_datetime t2 ->
  dt_tzinfo t1 = PH_TZ -> dt_tzinfo t2 = PH_TZ ->
  datetime_le t1 t2 = true ->
  datetime_le (shift_start_ph t1) (shift_start_ph t2) = true.
Proof.
  intros Hv1 Hv2 Hz1 Hz2. unfold datetime_le. rewrite !Z.leb_le.
  unfold utc_micros. rewrite Hz1, Hz2.
  assert (Hs1 : dt_tzinfo (shift_start_ph t1) = PH_TZ)
    by (destruct (shift_start_ph_cases t1) as [[_ ->]|[[_ ->]|[_ ->]]];
        reflexivity).
  assert (Hs2 : dt_tzinfo (shift_start_ph t2) = PH_TZ)
    by (destruct (shift_start_ph_cases t2) as [[_ ->]|[[_ ->]|[_ ->]]];
        reflexivity).
  rewrite Hs1, Hs2.
  destruct (shift_start_ph_wall t1 Hv1)
    as (o1 & tod1 & h1 & Ht1 & _ & Hh1 & Hr1 & _ & Hw1 & Htod1 & ->).
  destruct (shift_start_ph_wall t2 Hv2)
    as (o2 & tod2 & h2 & Ht2 & _ & Hh2 & Hr2 & _ & Hw2 & Htod2 & ->).
  intros Hle.
  assert (Hle' : wall_micros t1 <= wall_micros t2) by lia.
  clear Hle. revert Htod1 Htod2 Hw1 Hw2 Hle'.
  generalize (wall_micros t1) (wall_micros t2). intros w1 w2.
  unfold US_PER_SECOND. intros -> -> Hw1 Hw2 Hle.
  assert (o1 <= o2) by lia.
  destruct (Z.eq_dec o1 o2) as [<-|Hne].
  - assert (h1 <= h2); [|lia].
    revert Hr1 Hr2. Z.div_mod_to_equations. lia.
  - assert (o1 + 1 <= o2) by lia. lia.
Qed.

Lemma shift_start_ph_monotone_witness :
  let t1 := mk_datetime 2024 3 10 23 59 59 999999 PH_TZ in
  let t2 := mk_datetime 2024 3 11 0 0 0 0 PH_TZ in
  datetime_le (shift_start_ph t1) (shift_start_ph t2) = true.
Proof.
  cbv zeta.
  apply (shift_start_ph_monotone
           (mk_datetime 2024 3 10 23 59 59 999999 PH_TZ)
           (mk_datetime 2024 3 11 0 0 0 0 PH_TZ));
    reflexivity.
Defined.

Lemma toordinal_first_day d :
  valid_date d -> toordinal d = 1 -> d = mk_date 1 1 1.
Proof.
  intros Hv Ho. unfold valid_date in Hv. rewrite check_date_fields_true in Hv.
  destruct Hv as (_ & Hm & Hd).
  destruct (ymd2ord_inj (year d) (month d) (day d) 1 1 1 Hm Hd
              ltac:(lia) ltac:(change (1 <= 1 <= 31); lia) Ho) as (Hy' & Hm' & Hd').
  destruct d; simpl in *; congruence.
Qed.

(** The attendance day is the day in which the reading of six hours earlier
    falls. *)
Lemma attendance_day_ordinal t :
  valid_datetime t -> dt_date t <> mk_date 1 1 1 ->
  exists d, attendance_day_for t = Some d /\ valid_date d
            /\ toordinal d
               = (wall_micros t - 6 * 3600 * US_PER_SECOND) / US_PER_DAY.
Proof.
  intros Hv Hne. pose proof (time_lt_six t Hv) as Hsix.
  pose proof Hv as Hf. apply valid_datetime_fields in Hf.
  destruct Hf as (Hd & Ht & _).
  unfold attendance_day_for.
  destruct (time_lt (dt_time t) (mk_time 6 0 0 0)) eqn:E.
  - assert (Hh : dt_hour t < 6) by (apply Hsix; reflexivity).
    exists (day_before (dt_date t)).
    destruct (day_before_ordinal _ Hd Hne) as [Hv' Ho].
    split; [apply date_sub_days_one; assumption|]. split; [exact Hv'|].
    rewrite Ho. unfold wall_micros, US_PER_DAY, US_PER_SECOND.
    generalize (toordinal (dt_date t)). intros o.
    Z.div_mod_to_equations. lia.
  - assert (Hh : 6 <= dt_hour t).
    { destruct (Z.lt_ge_cases (dt_hour t) 6) as [Hlt|Hge]; [|exact Hge].
      apply Hsix in Hlt. congruence. }
    exists (dt_date t). split; [reflexivity|]. split; [exact Hd|].
    unfold wall_micros, US_PER_DAY, US_PER_SECOND.
    generalize (toordinal (dt_date t)). intros o.
    Z.div_mod_to_equations. lia.
Qed.

(** X3.  For a well-formed timestamp later than 0001-01-01, the attendance
    day is the calendar date of the reading six hours earlier: the timestamp
    minus six hours exists and [attendance_day_for] returns its date. *)
Theorem attendance_day_for_six_hours_earlier (t : datetime) :
  valid_datetime t -> dt_date t <> mk_date 1 1 1 ->
  exists t',
    datetime_add t (- (6 * 3600 * US_PER_SECOND)) = Some t'
    /\ attendance_day_for t = Some (dt_date t').
Proof.
  intros Hv Hne.
  destruct (attendance_day_ordinal t Hv Hne) as (d & Hday & Hvd & Ho).
  pose proof (toordinal_bounds d Hvd) as Hb.
  unfold datetime_add. cbv zeta.
  replace (wall_micros t + - (6 * 3600 * US_PER_SECOND))
    with (wall_micros t - 6 * 3600 * US_PER_SECOND) by lia.
  rewrite <- Ho.
  replace ((0 <? toordinal d) && (toordinal d <=? MAXORDINAL)) with true
    by (symmetry; apply andb_true_iff; rewrite Z.ltb_lt, Z.leb_le; lia).
  rewrite (toordinal_fromordinal d Hvd). simpl.
  eexists. split; [reflexivity|]. rewrite Hday. unfold dt_date. simpl.
  destruct d; reflexivity.
Qed.

Lemma attendance_day_for_six_hours_earlier_witness :
  let t := mk_datetime 2024 1 1 5 59 59 999999 PH_TZ in
  exists t',
    datetime_add t (- (6 * 3600 * US_PER_SECOND)) = Some t'
    /\ attendance_day_for t = Some (dt_date t').
Proof.
  cbv zeta.
  apply (attendance_day_for_six_hours_earlier
           (mk_datetime 2024 1 1 5 59 59 999999 PH_TZ));
    [reflexivity|discriminate].
Defined.

(** X4.  The attendance day is monotone on the timestamps of one zone: a
    later reading never belongs to an earlier attendance day. *)
Theorem attendance_day_for_monotone (t1 t2 : datetime) :
  valid_datetime t1 -> valid_datetime t2 ->
  dt_date t1 <> mk_date 1 1 1 ->
  dt_tzinfo t1 = dt_tzinfo t2 ->
  datetime_le t1 t2 = true ->
  exists d1 d2,
    attendance_day_for t1 = Some d1 /\ attendance_day_for t2 = Some d2
    /\ toordinal d1 <= toordinal d2.
Proof.
  intros Hv1 Hv2 Hne1 Hz Hle.
  unfold datetime_le, utc_micros in Hle. rewrite Hz, Z.leb_le in Hle.
  assert (Hw : wall_micros t1 <= wall_micros t2) by lia.
  assert (Hne2 : dt_date t2 <> mk_date 1 1 1).
  { intros E2. apply Hne1.
    pose proof Hv1 as Hf1. apply valid_datetime_fields in Hf1.
    destruct Hf1 as (Hd1 & Ht1 & _).
    pose proof Hv2 as Hf2. apply valid_datetime_fields in Hf2.
    destruct Hf2 as (Hd2 & Ht2 & _).
    apply toordinal_first_day; [exact Hd1|].
    pose proof (toordinal_bounds _ Hd1) as Hb1.
    assert (Ho2 : toordinal (dt_date t2) = 1) by (rewrite E2; reflexivity).
    revert Hw. unfold wall_micros. rewrite Ho2.
    generalize (toordinal (dt_date t1)) Hb1. intros o Hb.
    unfold US_PER_SECOND. lia. }
  destruct (attendance_day_ordinal t1 Hv1 Hne1) as (d1 & Hd1 & _ & Ho1).
  destruct (attendance_day_ordinal t2 Hv2 Hne2) as (d2 & Hd2 & _ & Ho2).
  exists d1, d2. split; [exact Hd1|]. split; [exact Hd2|].
  rewrite Ho1, Ho2. apply Z.div_le_mono; [reflexivity|lia].
Qed.

Lemma attendance_day_for_monotone_witness :
  let t1 := mk_datetime 2024 3 10 23 0 0 0 PH_TZ in
  let t2 := mk_datetime 2024 3 11 5 0 0 0 PH_TZ in
  exists d1 d2,
    attendance_day_for t1 = Some d1 /\ attendance_day_for t2 = Some d2
    /\ toordinal d1 <= toordinal d2.
Proof.
  cbv zeta.
  apply (attendance_day_for_monotone
           (mk_datetime 2024 3 10 23 0 0 0 PH_TZ)
           (mk_datetime 2024 3 11 5 0 0 0 PH_TZ));
    first [reflexivity|discriminate].
Defined.

(** ** The handlers, case by case *)

Lemma key_refused_or_accepted (key : option string) (e : env) :
  key ≠ Some (INTERNAL_KEY e) ∨ key = Some (INTERNAL_KEY e).
Proof. destruct (decide (key = Some (INTERNAL_KEY e))); auto. Qed.

Lemma teams_run key e :
  key = Some (INTERNAL_KEY e) →
  teams key e =
  match SALES_DB e with
  | Some conn =>
      ([call_sales_conn; call_sales_execute],
       Returned (JArr (JStr <$> team_names (teams_table conn))))
  | None => ([call_sales_conn], Unhandled)
  end.
Proof.
  intros Hkey. unfold teams.
  rewrite require_internal_key_accepts by exact Hkey.
  unfold mbind, handler_bind, sales_conn, logged, logged_partial, mret,
    handler_ret.
  destruct (SALES_DB e); reflexivity.
Qed.

Lemma sales_shift_run team key e :
  key = Some (INTERNAL_KEY e) →
  sales_shift team key e =
  match datetime_now (env_clock e) PH_TZ with
  | None => ([call_now_ph], Unhandled)
  | Some now =>
      match SALES_DB e, astimezone (shift_start_ph now) UTC with
      | Some conn, Some ts_from =>
          ([call_now_ph; call_shift_start_ph; call_sales_conn;
            call_sales_execute],
           Returned
             (JObj [("team", JStr team);
                    ("shift_start_ph", JStr (isoformat (shift_start_ph now)));
                    ("updated_ph", JStr (isoformat now));
                    ("rows",
                     JArr (json_of_sales_total
                           <$> sales_by_page team ts_from
                                 (sales_table conn)))]))
      | _, _ =>
          ([call_now_ph; call_shift_start_ph; call_sales_conn], Unhandled)
      end
  end.
Proof.
  intros Hkey. unfold sales_shift.
  rewrite require_internal_key_accepts by exact Hkey.
  unfold mbind, handler_bind, now_ph, logged, sales_conn, logged_partial,
    partial, mret, handler_ret.
  destruct (datetime_now (env_clock e) PH_TZ) as [now|]; [|reflexivity].
  destruct (SALES_DB e) as [conn|]; [|reflexivity].
  destruct (astimezone (shift_start_ph now) UTC); reflexivity.
Qed.

Lemma attendance_today_run key e :
  key = Some (INTERNAL_KEY e) →
  attendance_today key e =
  match datetime_now (env_clock e) PH_TZ with
  | None => ([call_now_ph], Unhandled)
  | Some now =>
      match attendance_day_for now with
      | None => ([call_now_ph; call_attendance_day_for], Unhandled)
      | Some att_day =>
          match ATTEND_DB e with
          | None =>
              ([call_now_ph; call_attendance_day_for; call_attend_conn],
               Unhandled)
          | Some table =>
              ([call_now_ph; call_attendance_day_for; call_attend_conn;
                call_attend_execute],
               match group_rows (clockins_of_day att_day table) with
               | Some grouped =>
                   Returned
                     (JObj [("attendance_day", JStr (date_isoformat att_day));
                            ("updated_ph", JStr (isoformat now));
                            ("data", json_of_grouped grouped)])
               | None => Unhandled
               end)
          end
      end
  end.
Proof.
  intros Hkey. unfold attendance_today.
  rewrite require_internal_key_accepts by exact Hkey.
  unfold mbind, handler_bind, now_ph, logged, attend_conn, logged_partial,
    partial, mret, handler_ret.
  destruct (datetime_now (env_clock e) PH_TZ) as [now|]; [|reflexivity].
  destruct (attendance_day_for now) as [att_day|]; [|reflexivity].
  destruct (ATTEND_DB e) as [table|]; [|reflexivity].
  destruct (group_rows (clockins_of_day att_day table)); reflexivity.
Qed.

(** The three handlers that check the key refuse alike. *)
Lemma app_refused req e :
  req_x_internal_key req ≠ Some (INTERNAL_KEY e) →
  app req e =
  match req_route req, req_team req with
  | Health, _ => ([], mk_response 200 (JObj [("ok", JBool true)]))
  | SalesShift, None => ([], missing_parameter "team")
  | _, _ => ([], mk_response 401 (JObj [("detail", JStr "Unauthorized")]))
  end.
Proof.
  intros Hkey. unfold app.
  destruct (req_route req); [reflexivity| |destruct (req_team req)|];
    try reflexivity;
    unfold respond, teams, attendance_today, sales_shift;
    rewrite require_internal_key_refuses by exact Hkey;
    try reflexivity; destruct (req_team req); reflexivity.
Qed.

Ltac status_case :=
  simpl; repeat split; intros;
  repeat match goal with
    | H : _ ∧ _ |- _ => destruct H
    | H : _ ∨ _ |- _ => destruct H
    | H : is_Some None |- _ => destruct H; discriminate
    end;
  first
    [ discriminate | contradiction | assumption | reflexivity
    | left; reflexivity | right; left; reflexivity
    | right; right; left; reflexivity | right; right; right; reflexivity
    | right; right; split; [reflexivity|eexists; reflexivity] ].

(** X5.  Every answer has the status 200, 401, 422 or 500.  It is 401
    exactly when the key header is missing or wrong on a route other than
    [/health] whose parameters are there, and 422 exactly when
    [/sales/shift] is asked without [team]; [/health] is always answered
    200. *)
Theorem app_status (e : env) (req : request) :
  let st := status_code (app req e).2 in
  (st = 200 ∨ st = 401 ∨ st = 422 ∨ st = 500)
  ∧ (st = 401 ↔
     req_x_internal_key req ≠ Some (INTERNAL_KEY e)
     ∧ (req_route req = Teams ∨ req_route req = AttendanceToday
        ∨ (req_route req = SalesShift ∧ is_Some (req_team req))))
  ∧ (st = 422 ↔ req_route req = SalesShift ∧ req_team req = None)
  ∧ (req_route req = Health → st = 200).
Proof.
  cbv zeta.
  destruct (key_refused_or_accepted (req_x_internal_key req) e) as [Hkey|Hkey].
  - rewrite (app_refused req e Hkey).
    destruct (req_route req), (req_team req) as [team|]; status_case.
  - unfold app.
    destruct (req_route req) eqn:Hr.
    + status_case.
    + unfold respond. rewrite teams_run by exact Hkey.
      destruct (SALES_DB e); status_case.
    + destruct (req_team req) as [team|] eqn:Ht.
      * unfold respond. rewrite sales_shift_run by exact Hkey.
        destruct (datetime_now (env_clock e) PH_TZ) as [now|];
          [destruct (SALES_DB e);
           [destruct (astimezone (shift_start_ph now) UTC)|]|];
          status_case.
      * status_case.
    + unfold respond. rewrite attendance_today_run by exact Hkey.
      destruct (datetime_now (env_clock e) PH_TZ) as [now|];
        [destruct (attendance_day_for now) as [att_day|];
         [destruct (ATTEND_DB e) as [table|];
          [destruct (group_rows (clockins_of_day att_day table))|]|]|];
        status_case.
Qed.

Lemma app_status_witness :
  let e := mk_env "secret" (mk_datetime 2024 3 10 2 23 45 0 UTC) None None in
  status_code (app (mk_request SalesShift None None) e).2 = 422
  ∧ status_code (app (mk_request Health None None) e).2 = 200.
Proof.
  cbv zeta.
  destruct (app_status
              (mk_env "secret" (mk_datetime 2024 3 10 2 23 45 0 UTC) None None)
              (mk_request SalesShift None None)) as (_ & _ & H422 & _).
  destruct (app_status
              (mk_env "secret" (mk_datetime 2024 3 10 2 23 45 0 UTC) None None)
              (mk_request Health None None)) as (_ & _ & _ & H200).
  split; [apply H422; split; reflexivity|apply H200; reflexivity].
Defined.

Ltac calls_case :=
  simpl; repeat split; intros;
  repeat match goal with
    | H : _ ∨ _ |- _ => destruct H
    | H : _ ∈ [] |- _ => apply not_elem_of_nil in H; contradiction
    | H : _ ∈ _ :: _ |- _ =>
        apply elem_of_cons in H; destruct H as [H|H]; [try discriminate|]
    end;
  first
    [ discriminate | contradiction | reflexivity
    | left; reflexivity | right; reflexivity
    | apply prefix_nil
    | repeat apply prefix_cons; apply prefix_nil ].

(** X6.  The calls a request makes are an initial part of the sequence of
    its route (the clock, the resolver, the connection, the query), and all
    of it when the answer is 200.  So a connection is opened after the clock
    was read, a query is run on an opened connection only, [/teams] and
    [/sales/shift] never touch the attendance store, [/attendance/today]
    never touches the sales store, and [/health] calls nothing. *)
Theorem app_calls (e : env) (req : request) :
  let calls := (app req e).1 in
  calls `prefix_of` store_calls_of (req_route req)
  ∧ (status_code (app req e).2 = 200 → calls = store_calls_of (req_route req))
  ∧ (call_attend_conn ∈ calls ∨ call_attend_execute ∈ calls →
     req_route req = AttendanceToday)
  ∧ (call_sales_conn ∈ calls ∨ call_sales_execute ∈ calls →
     req_route req = Teams ∨ req_route req = SalesShift).
Proof.
  cbv zeta.
  destruct (key_refused_or_accepted (req_x_internal_key req) e) as [Hkey|Hkey].
  - rewrite (app_refused req e Hkey).
    destruct (req_route req), (req_team req) as [team|]; calls_case.
  - unfold app.
    destruct (req_route req) eqn:Hr.
    + calls_case.
    + unfold respond. rewrite teams_run by exact Hkey.
      destruct (SALES_DB e); calls_case.
    + destruct (req_team req) as [team|] eqn:Ht.
      * unfold respond. rewrite sales_shift_run by exact Hkey.
        destruct (datetime_now (env_clock e) PH_TZ) as [now|];
          [destruct (SALES_DB e);
           [destruct (astimezone (shift_start_ph now) UTC)|]|];
          calls_case.
      * calls_case.
    + unfold respond. rewrite attendance_today_run by exact Hkey.
      destruct (datetime_now (env_clock e) PH_TZ) as [now|];
        [destruct (attendance_day_for now) as [att_day|];
         [destruct (ATTEND_DB e) as [table|];
          [destruct (group_rows (clockins_of_day att_day table))|]|]|];
        calls_case.
Qed.

Lemma app_calls_witness :
  let e := mk_env "secret" (mk_datetime 2024 3 10 2 23 45 0 UTC)
             (Some (mk_sales_db ["X"] [])) None in
  (app (mk_request Teams (Some "secret") None) e).1
  = [call_sales_conn; call_sales_execute].
Proof.
  cbv zeta.
  apply (app_calls
           (mk_env "secret" (mk_datetime 2024 3 10 2 23 45 0 UTC)
              (Some (mk_sales_db ["X"] [])) None)
           (mk_request Teams (Some "secret") None)).
  vm_compute. reflexivity.
Defined.

(** X7.  With the right key, a store that cannot be reached is answered 500
    and no query is run: [/teams] and [/sales/shift] when the sales store is
    down, [/attendance/today] when the attendance store is.  A failed
    connection is never answered as an empty result. *)
Theorem store_unreachable (e : env) (req : request) :
  req_x_internal_key req = Some (INTERNAL_KEY e) →
  (req_route req = Teams ∨ (req_route req = SalesShift ∧ is_Some (req_team req)) →
   SALES_DB e = None →
   (app req e).2 = mk_response 500 (JStr "Internal Server Error")
   ∧ call_sales_execute ∉ (app req e).1)
  ∧ (req_route req = AttendanceToday → ATTEND_DB e = None →
     (app req e).2 = mk_response 500 (JStr "Internal Server Error")
     ∧ call_attend_execute ∉ (app req e).1).
Proof.
  intros Hkey. unfold app. split.
  - intros [Hr|[Hr [team Ht]]] Hdb; rewrite Hr; [|rewrite Ht]; unfold respond.
    + rewrite teams_run, Hdb by exact Hkey. simpl. split; [reflexivity|].
      intros Hin. apply elem_of_cons in Hin. destruct Hin as [Hin|Hin];
        [discriminate|]. apply not_elem_of_nil in Hin. exact Hin.
    + rewrite sales_shift_run, Hdb by exact Hkey.
      destruct (datetime_now (env_clock e) PH_TZ) as [now|]; simpl;
        (split; [reflexivity|]); intros Hin;
        repeat (apply elem_of_cons in Hin; destruct Hin as [Hin|Hin];
                [discriminate|]);
        apply not_elem_of_nil in Hin; exact Hin.
  - intros Hr Hdb. rewrite Hr. unfold respond.
    rewrite attendance_today_run, Hdb by exact Hkey.
    destruct (datetime_now (env_clock e) PH_TZ) as [now|];
      [destruct (attendance_day_for now) as [att_day|]|]; simpl;
      (split; [reflexivity|]); intros Hin;
      repeat (apply elem_of_cons in Hin; destruct Hin as [Hin|Hin];
              [discriminate|]);
      apply not_elem_of_nil in Hin; exact Hin.
Qed.

Lemma store_unreachable_witness :
  let e := mk_env "secret" (mk_datetime 2024 3 10 2 23 45 0 UTC) None None in
  (app (mk_request SalesShift (Some "secret") (Some "X")) e).2
  = mk_response 500 (JStr "Internal Server Error")
  ∧ (app (mk_request AttendanceToday (Some "secret") None) e).2
    = mk_response 500 (JStr "Internal Server Error").
Proof.
  cbv zeta.
  destruct (store_unreachable
              (mk_env "secret" (mk_datetime 2024 3 10 2 23 45 0 UTC) None None)
              (mk_request SalesShift (Some "secret") (Some "X")) eq_refl)
    as [Hsales _].
  destruct (store_unreachable
              (mk_env "secret" (mk_datetime 2024 3 10 2 23 45 0 UTC) None None)
              (mk_request AttendanceToday (Some "secret") None) eq_refl)
    as [_ Hattend].
  split.
  - apply Hsales; [right; split; [reflexivity|eexists; reflexivity]|reflexivity].
  - apply Hattend; reflexivity.
Defined.

(** ** The team names *)

Lemma team_names_spec (table : list string) :
  StronglySorted String.le (team_names table)
  ∧ NoDup (team_names table)
  ∧ ∀ name, name ∈ team_names table ↔ name ∈ table.
Proof.
  unfold team_names. split; [|split].
  - apply StronglySorted_merge_sort; apply _.
  - rewrite merge_sort_Permutation. apply NoDup_remove_dups.
  - intros name. rewrite merge_sort_Permutation. apply elem_of_remove_dups.
Qed.

(** X8.  With the right key and the sales store reachable, [/teams] answers
    200 with a list of strings: the names of the table, each once, in
    ascending order (so the empty list for an empty table), after one
    connection and one query. *)
Theorem teams_response (e : env) (req : request) (conn : sales_db) :
  req_route req = Teams →
  req_x_internal_key req = Some (INTERNAL_KEY e) →
  SALES_DB e = Some conn →
  ∃ names,
    app req e
    = ([call_sales_conn; call_sales_execute],
       mk_response 200 (JArr (JStr <$> names)))
    ∧ StronglySorted String.le names
    ∧ NoDup names
    ∧ (∀ name, name ∈ names ↔ name ∈ teams_table conn)
    ∧ (teams_table conn = [] → names = []).
Proof.
  intros Hr Hkey Hdb. exists (team_names (teams_table conn)).
  unfold app. rewrite Hr. unfold respond.
  rewrite teams_run, Hdb by exact Hkey.
  destruct (team_names_spec (teams_table conn)) as (Hs & Hn & Hm).
  split; [reflexivity|]. split; [exact Hs|]. split; [exact Hn|].
  split; [exact Hm|]. intros ->. reflexivity.
Qed.

Lemma teams_response_witness :
  let e := mk_env "secret" (mk_datetime 2024 3 10 2 23 45 0 UTC)
             (Some (mk_sales_db ["beta"; "alpha"; "beta"] [])) None in
  ∃ names,
    app (mk_request Teams (Some "secret") None) e
    = ([call_sales_conn; call_sales_execute],
       mk_response 200 (JArr (JStr <$> names)))
    ∧ NoDup names.
Proof.
  cbv zeta.
  destruct (teams_response
              (mk_env "secret" (mk_datetime 2024 3 10 2 23 45 0 UTC)
                 (Some (mk_sales_db ["beta"; "alpha"; "beta"] [])) None)
              (mk_request Teams (Some "secret") None)
              (mk_sales_db ["beta"; "alpha"; "beta"] [])
              eq_refl eq_refl eq_refl) as (names & Happ & _ & Hnodup & _).
  exists names. split; [exact Happ|exact Hnodup].
Defined.

(** ** A successful request to [/sales/shift] *)

Lemma shift_start_ph_tzinfo t : dt_tzinfo (shift_start_ph t) = PH_TZ.
Proof.
  destruct (shift_start_ph_cases t) as [[_ ->]|[[_ ->]|[_ ->]]]; reflexivity.
Qed.

Lemma shift_start_ph_floor_wall t :
  valid_datetime t ->
  0 <= wall_micros t - wall_micros (shift_start_ph t)
  < 8 * 3600 * US_PER_SECOND.
Proof.
  intros Hv.
  destruct (shift_start_ph_wall t Hv)
    as (o & tod & h0 & Ht & _ & Hh & Hr & _ & Hw & Htod & ->).
  revert Htod Hw. generalize (wall_micros t). intros w.
  unfold US_PER_SECOND. intros -> Hw.
  revert Hr. Z.div_mod_to_equations. lia.
Qed.

Lemma astimezone_is_Some_wall dt tz :
  check_tzinfo (dt_tzinfo dt) = true -> check_tzinfo tz = true ->
  3 * US_PER_DAY <= wall_micros dt < (MAXORDINAL - 2) * US_PER_DAY ->
  is_Some (astimezone dt tz).
Proof.
  intros Hz Htz Hw.
  unfold check_tzinfo in Hz, Htz. apply andb_true_iff in Hz, Htz.
  rewrite !Z.ltb_lt in Hz, Htz.
  unfold astimezone. destruct (decide (tz = dt_tzinfo dt)); [eexists; reflexivity|].
  destruct (datetime_add_is_Some dt (- offset_micros (dt_tzinfo dt)))
    as [utc Hutc].
  { unfold offset_micros, MAXORDINAL, US_PER_DAY, US_PER_SECOND in *.
    Z.div_mod_to_equations. lia. }
  rewrite Hutc. simpl. apply datetime_add_is_Some.
  apply datetime_add_wall in Hutc. destruct Hutc as [Hwu _].
  rewrite wall_micros_replace_tzinfo, Hwu.
  unfold offset_micros, MAXORDINAL, US_PER_DAY, US_PER_SECOND in *.
  Z.div_mod_to_equations. lia.
Qed.



(** ** The sums of the aggregation *)

Lemma sum_totals_Permutation (l k : list sales_total) :
  l ≡ₚ k → sum_totals l = sum_totals k.
Proof.
  unfold sum_totals. induction 1; simpl; lia.
Qed.

Lemma sum_amounts_filter_page (p : string) (rows : list sale) :
  sum_amounts (filter (λ r, sale_page r = p) rows)
  + sum_amounts (filter (λ r, sale_page r ≠ p) rows)
  = sum_amounts rows.
Proof.
  induction rows as [|r rows IH]; [reflexivity|].
  rewrite !filter_cons.
  destruct (decide (sale_page r = p)) as [E|E].
  - rewrite decide_False by tauto. unfold sum_amounts in *. simpl. lia.
  - rewrite decide_True by exact E. unfold sum_amounts in *. simpl. lia.
Qed.

(** The groups of a duplicate-free list of pages that has the pages of all
    the rows partition the rows. *)
Lemma sum_groups (pages : list string) (rows : list sale) :
  NoDup pages → (∀ r, r ∈ rows → sale_page r ∈ pages) →
  foldr (λ p acc, sum_amounts (filter (λ r, sale_page r = p) rows) + acc)
    0 pages
  = sum_amounts rows.
Proof.
  intros Hnd. revert rows.
  induction Hnd as [|p pages Hp Hnd IH]; intros rows Hin.
  - destruct rows as [|r rows]; [reflexivity|].
    specialize (Hin r ltac:(constructor)). apply not_elem_of_nil in Hin.
    contradiction.
  - cbn [foldr].
    rewrite <- (sum_amounts_filter_page p rows). f_equal.
    rewrite <- (IH (filter (λ r, sale_page r ≠ p) rows)).
    + clear IH Hin. induction pages as [|q pages IHp]; [reflexivity|].
      cbn [foldr]. rewrite IHp.
      * f_equal. f_equal. rewrite list_filter_filter.
        apply list_filter_iff. intros r. split; [|tauto].
        intros ->. split; [reflexivity|]. intros ->. apply Hp. constructor.
      * intros Hpin. apply Hp. constructor. exact Hpin.
      * apply NoDup_cons in Hnd. tauto.
    + intros r Hr. apply list_elem_of_filter in Hr. destruct Hr as [Hne Hr].
      specialize (Hin r Hr). apply elem_of_cons in Hin.
      destruct Hin as [E|Hin]; [contradiction|exact Hin].
Qed.

Lemma sum_amounts_magnitudes (rows : list sale) :
  Z.abs (sum_amounts rows) ≤ sum_magnitudes rows.
Proof.
  unfold sum_amounts, sum_magnitudes.
  induction rows as [|r rows IH]; simpl; lia.
Qed.

Lemma sum_magnitudes_filter (P : sale → Prop) `{∀ r, Decision (P r)}
    (rows : list sale) :
  0 ≤ sum_magnitudes (filter P rows) ≤ sum_magnitudes rows.
Proof.
  unfold sum_magnitudes. induction rows as [|r rows IH]; [simpl; lia|].
  rewrite filter_cons. destruct (decide (P r)); simpl; lia.
Qed.

Lemma sales_where_filter team ts_from (table : list sale) :
  filter (sales_where team ts_from) table
  = filter (λ r, sale_team r = team
                 ∧ utc_micros ts_from ≤ utc_micros (sale_ts r)) table.
Proof.
  apply list_filter_iff. intros r. unfold sales_where, datetime_le.
  rewrite Is_true_true, Z.leb_le. tauto.
Qed.

(** X10.  When the magnitudes of the amounts of the selected transactions,
    those of the team at or after the boundary, add up to at most 2 ^ 53,
    the totals of the aggregation add up to the sum of the amounts of the
    selected transactions, each counted once.  The result is empty exactly
    when no transaction is selected. *)
Theorem sales_by_page_conserves (team : string) (ts_from : datetime)
    (table : list sale) :
  let selected :=
    filter (λ r, sale_team r = team
                 ∧ utc_micros ts_from ≤ utc_micros (sale_ts r)) table in
  (sum_magnitudes selected ≤ 2 ^ 53 →
   sum_totals (sales_by_page team ts_from table) = sum_amounts selected)
  ∧ (sales_by_page team ts_from table = [] ↔ selected = []).
Proof.
  cbv zeta. rewrite <- sales_where_filter.
  unfold sales_by_page. cbv zeta.
  set (matching := filter (sales_where team ts_from) table).
  split.
  - intros Hsmall.
    rewrite (sum_totals_Permutation _ _ (merge_sort_Permutation _ _)).
    rewrite <- (sum_groups (remove_dups (sale_page <$> matching)) matching).
    + generalize (remove_dups (sale_page <$> matching)). intros pages.
      induction pages as [|p pages IH]; [reflexivity|].
      rewrite fmap_cons. unfold sum_totals in *. cbn [foldr total].
      rewrite IH, coalesce_sql_sum, sum_amounts_fmap, float_cast_exact;
        [reflexivity|].
      pose proof (sum_amounts_magnitudes
                    (filter (λ r, sale_page r = p) matching)).
      pose proof (sum_magnitudes_filter (λ r, sale_page r = p) matching).
      lia.
    + apply NoDup_remove_dups.
    + intros r Hr. apply elem_of_remove_dups, list_elem_of_fmap.
      exists r. split; [reflexivity|exact Hr].
  - split.
    + intros Hnil. destruct matching as [|r rows] eqn:E; [reflexivity|].
      exfalso.
      assert (Hin : sale_page r ∈ remove_dups (sale_page <$> r :: rows)).
      { apply elem_of_remove_dups. rewrite fmap_cons. constructor. }
      pose proof (merge_sort_Permutation total_desc
                    ((λ p, mk_sales_total p
                             (float_cast
                                (coalesce
                                   (sql_sum
                                      (sale_amount
                                       <$> filter (λ r0, sale_page r0 = p)
                                             (r :: rows))) 0)))
                     <$> remove_dups (sale_page <$> r :: rows))) as Hperm.
      rewrite Hnil in Hperm. apply Permutation_nil_l in Hperm.
      symmetry in Hperm. apply fmap_nil_inv in Hperm. rewrite Hperm in Hin.
      apply not_elem_of_nil in Hin. exact Hin.
    + intros ->. reflexivity.
Qed.

Lemma sales_by_page_conserves_witness :
  let start := mk_datetime 2024 3 10 8 0 0 0 PH_TZ in
  let early := mk_datetime 2024 3 10 7 59 59 999999 PH_TZ in
  let table :=
    [mk_sale "X" "A" (Some 10) start; mk_sale "X" "B" (Some (-4)) start;
     mk_sale "X" "A" (Some 5) start; mk_sale "X" "A" (Some 100) early;
     mk_sale "Y" "A" (Some 1000) start; mk_sale "X" "C" None start] in
  sum_totals (sales_by_page "X" start table) = 11.
Proof.
  cbv zeta.
  refine (eq_trans
            (proj1 (sales_by_page_conserves "X"
                      (mk_datetime 2024 3 10 8 0 0 0 PH_TZ) _) _) _).
  - vm_compute. discriminate.
  - vm_compute. reflexivity.
Defined.

(** ** The entries of the attendance data *)

Lemma isoformat_offset_suffix dt :
  ∃ prefix, isoformat dt = prefix +:+ format_offset (dt_tzinfo dt).
Proof.
  unfold isoformat.
  exists (date_isoformat (dt_date dt) +:+ "T"
          +:+ zfill 2 (dt_hour dt) +:+ ":" +:+ zfill 2 (dt_minute dt)
          +:+ ":" +:+ zfill 2 (dt_second dt)
          +:+ (if dt_microsecond dt =? 0 then ""
               else "." +:+ zfill 6 (dt_microsecond dt))).
  rewrite !append_assoc. reflexivity.
Qed.

(** X11.  For a clock-in stamped in a year from 1991 to 9998, in whatever
    zone the store delivered it, the entry made of the row carries the name
    of the row and its timestamp moved to the zone of the organisation: the
    same instant, written as a local ISO 8601 timestamp that ends in
    [+08:00]. *)
Theorem entry_of_spec (r : clockin) :
  valid_datetime (ph_ts r) → 1991 ≤ dt_year (ph_ts r) ≤ 9998 →
  ∃ ts,
    astimezone (ph_ts r) PH_TZ = Some ts
    ∧ entry_of r = Some (mk_entry (user_name r) (isoformat ts))
    ∧ dt_tzinfo ts = PH_TZ
    ∧ utc_micros ts = utc_micros (ph_ts r)
    ∧ iso8601_with_offset (isoformat ts) = true
    ∧ ∃ prefix, isoformat ts = prefix +:+ "+08:00".
Proof.
  intros Hv Hy.
  destruct (astimezone_is_Some (ph_ts r) PH_TZ Hv eq_refl ltac:(lia))
    as [ts Hts].
  exists ts. split; [exact Hts|].
  split; [unfold entry_of; rewrite Hts; reflexivity|].
  apply astimezone_instant in Hts. destruct Hts as [Hi Hz].
  split; [exact Hz|]. split; [exact Hi|]. split; [apply isoformat_iso8601|].
  destruct (isoformat_offset_suffix ts) as [prefix Hp].
  exists prefix. rewrite Hp, Hz. reflexivity.
Qed.

Lemma entry_of_spec_witness :
  let r := mk_clockin (mk_date 2024 3 10) "prime" "L1" "Ana" false
             (mk_datetime 2024 3 10 0 5 0 0 UTC) in
  entry_of r = Some (mk_entry "Ana" "2024-03-10T08:05:00+08:00")
  ∧ ∃ ts, astimezone (ph_ts r) PH_TZ = Some ts
          ∧ utc_micros ts = utc_micros (ph_ts r).
Proof.
  cbv zeta. split; [vm_compute; reflexivity|].
  destruct (entry_of_spec
              (mk_clockin (mk_date 2024 3 10) "prime" "L1" "Ana" false
                 (mk_datetime 2024 3 10 0 5 0 0 UTC)))
    as (ts & Hts & _ & _ & Hi & _).
  - reflexivity.
  - simpl. lia.
  - exists ts. split; [exact Hts|exact Hi].
Defined.

(** ** A successful request to [/attendance/today] *)

Lemma clockins_of_day_bucket (att_day : date) (table : list clockin) s p :
  bucket_rows s p (clockins_of_day att_day table)
  ≡ₚ filter (λ r, shift r = s ∧ page_key r = p)
       (filter (λ r, attendance_day r = att_day) table).
Proof.
  unfold bucket_rows, clockins_of_day.
  apply filter_Permutation, merge_sort_Permutation.
Qed.

Lemma datetime_now_not_first_day clock now :
  valid_datetime clock → 2 ≤ dt_year clock ≤ 9998 →
  datetime_now clock PH_TZ = Some now →
  dt_date now ≠ mk_date 1 1 1.
Proof.
  intros Hv Hy Hnow E.
  destruct (datetime_now_spec _ _ Hnow) as (_ & Hvnow & Hw & _).
  pose proof (wall_micros_range _ Hv Hy) as Hclock.
  apply valid_datetime_fields in Hvnow. destruct Hvnow as (_ & Ht & _).
  revert Hw. unfold wall_micros at 1. rewrite E.
  change (toordinal (mk_date 1 1 1)) with 1.
  unfold US_PER_DAY, US_PER_SECOND in *. lia.
Qed.



(** ** Start-up *)

Lemma not_set_false (v : option string) :
  not_set v = false ↔ ∃ s, v = Some s ∧ s ≠ "".
Proof.
  destruct v as [s|]; simpl.
  - rewrite bool_decide_eq_false. split.
    + intros Hs. exists s. auto.
    + intros (s' & [= <-] & Hs). exact Hs.
  - split; [discriminate|]. intros (s & Hs & _). discriminate.
Qed.

(** X13.  The module starts exactly when the three settings are in the
    environment and none is the empty string; otherwise it raises the
    [RuntimeError] of the first that is not, in the order sales store,
    attendance store, key.  So the configured key is never empty, and a
    request whose key header is the empty string is refused. *)
Theorem load_settings_spec (getenv : string → option string) :
  (∀ s a k, load_settings getenv = Started s a k ↔
     (getenv "SALES_DATABASE_URL_RO" = Some s ∧ s ≠ "")
     ∧ (getenv "ATTEND_DATABASE_URL_RO" = Some a ∧ a ≠ "")
     ∧ (getenv "INTERNAL_KEY" = Some k ∧ k ≠ ""))
  ∧ (∀ message, load_settings getenv = RuntimeError message →
       (not_set (getenv "SALES_DATABASE_URL_RO") = true
        ∧ message = "SALES_DATABASE_URL_RO not set")
       ∨ (not_set (getenv "SALES_DATABASE_URL_RO") = false
          ∧ not_set (getenv "ATTEND_DATABASE_URL_RO") = true
          ∧ message = "ATTEND_DATABASE_URL_RO not set")
       ∨ (not_set (getenv "SALES_DATABASE_URL_RO") = false
          ∧ not_set (getenv "ATTEND_DATABASE_URL_RO") = false
          ∧ not_set (getenv "INTERNAL_KEY") = true
          ∧ message = "INTERNAL_KEY not set"))
  ∧ (∀ s a k e req, load_settings getenv = Started s a k →
       INTERNAL_KEY e = k → req_x_internal_key req = Some "" →
       req_route req = Teams ∨ req_route req = AttendanceToday →
       app req e
       = ([], mk_response 401 (JObj [("detail", JStr "Unauthorized")]))).
Proof.
  assert (Hstarted : ∀ s a k, load_settings getenv = Started s a k ↔
     (getenv "SALES_DATABASE_URL_RO" = Some s ∧ s ≠ "")
     ∧ (getenv "ATTEND_DATABASE_URL_RO" = Some a ∧ a ≠ "")
     ∧ (getenv "INTERNAL_KEY" = Some k ∧ k ≠ "")).
  { intros s a k. unfold load_settings. cbv zeta.
    destruct (not_set (getenv "SALES_DATABASE_URL_RO")) eqn:E1.
    { split; [discriminate|]. intros [[H1 Hs] _].
      rewrite H1 in E1. simpl in E1. apply bool_decide_eq_true in E1.
      contradiction. }
    destruct (not_set (getenv "ATTEND_DATABASE_URL_RO")) eqn:E2.
    { split; [discriminate|]. intros (_ & [H2 Ha] & _).
      rewrite H2 in E2. simpl in E2. apply bool_decide_eq_true in E2.
      contradiction. }
    destruct (not_set (getenv "INTERNAL_KEY")) eqn:E3.
    { split; [discriminate|]. intros (_ & _ & [H3 Hk]).
      rewrite H3 in E3. simpl in E3. apply bool_decide_eq_true in E3.
      contradiction. }
    apply not_set_false in E1, E2, E3.
    destruct E1 as (s' & -> & Hs), E2 as (a' & -> & Ha), E3 as (k' & -> & Hk).
    simpl. split.
    - intros [= <- <- <-]. auto.
    - intros ([[= <-] _] & [[= <-] _] & [[= <-] _]). reflexivity. }
  split; [exact Hstarted|]. split.
  - intros message. unfold load_settings. cbv zeta.
    destruct (not_set (getenv "SALES_DATABASE_URL_RO")).
    { intros [= <-]. left. auto. }
    destruct (not_set (getenv "ATTEND_DATABASE_URL_RO")).
    { intros [= <-]. right. left. auto. }
    destruct (not_set (getenv "INTERNAL_KEY")); [|discriminate].
    intros [= <-]. right. right. auto.
  - intros s a k e req Hs Hk Hheader Hroute.
    apply Hstarted in Hs. destruct Hs as (_ & _ & [_ Hne]).
    rewrite app_refused.
    + destruct Hroute as [-> | ->]; reflexivity.
    + rewrite Hheader, Hk. intros [= E]. apply Hne. symmetry. exact E.
Qed.

Lemma load_settings_spec_witness :
  let getenv (v : string) :=
    if decide (v = "INTERNAL_KEY") then Some "" else Some "postgres://ro" in
  load_settings getenv = RuntimeError "INTERNAL_KEY not set".
Proof.
  cbv zeta.
  set (getenv := λ v : string,
         if decide (v = "INTERNAL_KEY") then Some ""
         else Some "postgres://ro").
  destruct (load_settings getenv) as [s a k|message] eqn:E.
  - exfalso.
    destruct (proj1 (proj1 (load_settings_spec getenv) s a k) E)
      as (_ & _ & [Hk Hne]).
    vm_compute in Hk. congruence.
  - destruct (proj1 (proj2 (load_settings_spec getenv)) message E)
      as [[H _]|[(_ & H & _)|(_ & _ & _ & ->)]];
      [vm_compute in H; discriminate|vm_compute in H; discriminate|
       reflexivity].
Defined.

(** ** The aggregation and the order of the table *)

Lemma sum_amounts_Permutation (l k : list sale) :
  l ≡ₚ k → sum_amounts l = sum_amounts k.
Proof. unfold sum_amounts. induction 1; simpl; lia. Qed.

Lemma sales_by_page_NoDup_rows team ts_from (table : list sale) :
  NoDup (sales_by_page team ts_from table).
Proof.
  eapply NoDup_fmap_1. apply sales_by_page_NoDup.
Qed.

(** X14.  The aggregation does not depend on the order in which the table
    holds its rows: two tables with the same rows give the same pairs, up to
    the order among them. *)
Theorem sales_by_page_Permutation (team : string) (ts_from : datetime)
    (table table' : list sale) :
  table ≡ₚ table' →
  sales_by_page team ts_from table ≡ₚ sales_by_page team ts_from table'.
Proof.
  intros Hperm.
  apply NoDup_Permutation; try apply sales_by_page_NoDup_rows.
  intros x. rewrite !sales_by_page_elem. cbv zeta.
  assert (Hf : filter (λ r, sale_team r = team
                            ∧ utc_micros ts_from ≤ utc_micros (sale_ts r)
                            ∧ sale_page r = page x) table
               ≡ₚ filter (λ r, sale_team r = team
                               ∧ utc_micros ts_from ≤ utc_micros (sale_ts r)
                               ∧ sale_page r = page x) table')
    by (apply filter_Permutation, Hperm).
  rewrite (sum_amounts_Permutation _ _ Hf).
  split; intros [Hne Ht]; (split; [|exact Ht]); intros E; apply Hne.
  - rewrite E in Hf. apply Permutation_nil_r, Hf.
  - rewrite E in Hf. symmetry in Hf. apply Permutation_nil_r, Hf.
Qed.

Lemma sales_by_page_Permutation_witness :
  let start := mk_datetime 2024 3 10 8 0 0 0 PH_TZ in
  let a := mk_sale "X" "A" (Some 10) start in
  let b := mk_sale "X" "B" (Some 7) start in
  sales_by_page "X" start [a; b] ≡ₚ sales_by_page "X" start [b; a].
Proof.
  cbv zeta.
  apply (sales_by_page_Permutation "X" (mk_datetime 2024 3 10 8 0 0 0 PH_TZ)).
  apply Permutation_swap.
Defined.
